(** * The [files] command of py-crash: a shallow embedding of
      [crash/commands/files.py].

    The module is a gdb plug-in: importing it looks up gdb's [char] type,
    defines the class [FilesCommand] and instantiates it once, which hands an
    [argparse] parser to the [CrashCommand] base class under the name
    ["files"].  The file below embeds

    - the Python values, exceptions and name lookup the module relies on,
    - the part of [argparse] that the parser built by [__init__] exercises,
      after [argparse.py] of CPython,
    - [str.format] and the [%] operator as used by [execute],
    - the class [FilesCommand] and the module's top level,

    and then states what the module does. *)

From Stdlib Require Import Ascii String.
From stdpp Require Import base strings list gmap pretty.

Set Warnings "-register-all".
Set Default Proof Using "Type".

Open Scope string_scope.
Open Scope list_scope.

(** ** Python values and exceptions *)

(** A [gdb.Type]: a named type of the debuggee, or a pointer to one
    ([gdb.Type.pointer()]). *)
Inductive gdb_type :=
| TNamed (name : string)
| TPointer (target : gdb_type).

(** The values that flow through the module. *)
Inductive pyval :=
| PyNone
| PyInt (z : Z)
| PyStr (s : string)
| PyList (items : list pyval)
| PyModule (name : string)
| PyClass (name : string)
| PyFunction (name : string)
| PyBuiltin (name : string)
| PyGdbType (t : gdb_type)
| PyInstance (class : string)
| PyNamespace (attrs : gmap string pyval).

(** The exceptions the module can meet. *)
Inductive pyexn :=
| ImportError (module : string)
| GdbError (msg : string)
| NameError (name : string)
| TypeError (msg : string)
| ValueError (msg : string)
| IndexError (msg : string)
| ArgumentError (msg : string)
| SystemExit (code : Z).

(** A call either returns a value or raises. *)
Inductive outcome (A : Type) :=
| Return (a : A)
| Raise (e : pyexn).
Arguments Return {A} a.
Arguments Raise {A} e.

Definition is_return {A} (o : outcome A) : bool :=
  match o with Return _ => true | Raise _ => false end.

(** [outcome] alone is the monad of the pure, fallible library calls. *)
#[export] Instance outcome_ret : MRet outcome := fun A a => Return a.
#[export] Instance outcome_bind : MBind outcome := fun A B f m =>
  match m with
  | Return a => f a
  | Raise e => Raise e
  end.

(** ** argparse: parsers and actions *)

(** The [nargs] values this module passes: an integer ([nargs=1]; the help
    action that every parser gets has [nargs=0]) and [argparse.REMAINDER]. *)
Inductive Nargs :=
| NargsInt (n : nat)
| NargsRemainder.

(** [_StoreAction] (the default of [add_argument]) and [_HelpAction]. *)
Inductive ActionKind := StoreAction | HelpAction.

Record Action := {
  option_strings : list string;   (* empty for a positional *)
  dest : string;
  nargs : Nargs;
  kind : ActionKind
}.

(** An [ArgumentParser] object.  [inst_format_usage] is the instance attribute
    [format_usage] when one has been assigned; otherwise the method of the
    class is used. *)
Record ArgumentParser := {
  prog : string;
  actions : list Action;
  inst_format_usage : option (unit -> string)
}.

(** ** The interpreter and the gdb host *)

(** A command object as the host keeps it: the instance and the parser of
    its arguments. *)
Record command := {
  cmd_self : pyval;
  cmd_parser : ArgumentParser
}.

(** What a run of the module can see and change: the modules the host can
    supply to [import], the types gdb knows, the builtin names, the namespace
    of this module, the commands registered with the host and the text
    printed so far. *)
Record interp := {
  importable : gset string;
  gdb_types : gmap string gdb_type;
  builtins : gset string;
  globals : gmap string pyval;
  commands : list (string * command);
  stdout : list string
}.

Definition set_globals (g : gmap string pyval) (st : interp) : interp :=
  {| importable := importable st; gdb_types := gdb_types st;
     builtins := builtins st; globals := g;
     commands := commands st; stdout := stdout st |}.

Definition set_commands (c : list (string * command)) (st : interp)
  : interp :=
  {| importable := importable st; gdb_types := gdb_types st;
     builtins := builtins st; globals := globals st;
     commands := c; stdout := stdout st |}.

(** Statements: state in, state and outcome out. *)
Definition Py (A : Type) : Type := interp -> interp * outcome A.

#[export] Instance Py_ret : MRet Py := fun A a st => (st, Return a).
#[export] Instance Py_bind : MBind Py := fun A B f m st =>
  match m st with
  | (st', Return a) => f a st'
  | (st', Raise e) => (st', Raise e)
  end.

Definition lift {A} (o : outcome A) : Py A := fun st => (st, o).

(** [LOAD_GLOBAL]/[LOAD_NAME]: the module namespace first, then the
    builtins; a name bound in neither raises [NameError]. *)
Definition load_global (name : string) : Py pyval := fun st =>
  match globals st !! name with
  | Some v => (st, Return v)
  | None =>
      if decide (name ∈ builtins st) then (st, Return (PyBuiltin name))
      else (st, Raise (NameError name))
  end.

(** [STORE_NAME] at module level. *)
Definition store_global (name : string) (v : pyval) : Py unit := fun st =>
  (set_globals (<[name := v]> (globals st)) st, Return tt).

(** [import m] and [from m import name]: the host supplies the module or
    the import fails.  A module counts as importable when the host supplies
    it together with the name the file takes from it. *)
Definition import_module (m : string) : Py pyval := fun st =>
  if decide (m ∈ importable st) then (st, Return (PyModule m))
  else (st, Raise (ImportError m)).

(** [gdb.lookup_type(name)]: the name [gdb] is loaded first, then gdb
    answers from its symbol table and raises [gdb.error] for an unknown
    type. *)
Definition host_lookup_type (name : string) : Py gdb_type := fun st =>
  match gdb_types st !! name with
  | Some t => (st, Return t)
  | None => (st, Raise (GdbError ("No type named " +:+ name +:+ ".")))
  end.

Definition gdb_lookup_type (name : string) : Py gdb_type :=
  _ ← load_global "gdb"; host_lookup_type name.

(** ** Strings as Python uses them here *)

Definition dash : ascii := "-"%char.

(** [s[0] in '-'] for a non-empty [s]: [prefix_chars] is the default ['-']. *)
Definition starts_with_dash (s : string) : bool :=
  match s with
  | String c _ => bool_decide (c = dash)
  | EmptyString => false
  end.

(** [s[1] in '-'], for a string of at least two characters. *)
Definition second_is_dash (s : string) : bool :=
  match s with
  | String _ (String c _) => bool_decide (c = dash)
  | _ => false
  end.

(** [c in s]. *)
Fixpoint contains_char (c : ascii) (s : string) : bool :=
  match s with
  | EmptyString => false
  | String c' s' => bool_decide (c' = c) || contains_char c s'
  end.

(** [s.split(c, 1)] when [c in s]: the text before the first [c] and the
    text after it. *)
Fixpoint split_once (c : ascii) (s : string) : option (string * string) :=
  match s with
  | EmptyString => None
  | String c' s' =>
      if bool_decide (c' = c) then Some (EmptyString, s')
      else match split_once c s' with
           | Some (l, r) => Some (String c' l, r)
           | None => None
           end
  end.

(** [s.lstrip('-')]. *)
Fixpoint lstrip_dash (s : string) : string :=
  match s with
  | String c s' => if bool_decide (c = dash) then lstrip_dash s' else s
  | EmptyString => EmptyString
  end.

(** [s.replace('-', '_')]. *)
Fixpoint dash_to_underscore (s : string) : string :=
  match s with
  | String c s' =>
      String (if bool_decide (c = dash) then "_"%char else c)
             (dash_to_underscore s')
  | EmptyString => EmptyString
  end.

Definition is_digit (c : ascii) : bool :=
  let n := nat_of_ascii c in (48 <=? n)%nat && (n <=? 57)%nat.

Fixpoint all_digits (s : string) : bool :=
  match s with
  | EmptyString => true
  | String c s' => is_digit c && all_digits s'
  end.

Definition nonempty (s : string) : bool :=
  match s with EmptyString => false | _ => true end.

(** The end of a regular expression, [$], is the end of the string or the
    place before a newline that ends it. *)
Fixpoint drop_final_newline (s : string) : string :=
  match s with
  | EmptyString => EmptyString
  | String c s' =>
      match s' with
      | EmptyString => if bool_decide (c = "010"%char) then EmptyString else s
      | String _ _ => String c (drop_final_newline s')
      end
  end.

(** argparse's [_negative_number_matcher], the regular expression
    [^-\d+$|^-\d*\.\d+$]. *)
Definition looks_like_negative_number (s : string) : bool :=
  match s with
  | String c s' =>
      let body := drop_final_newline s' in
      bool_decide (c = dash) &&
      ((nonempty body && all_digits body) ||
       match split_once "."%char body with
       | Some (l, r) => all_digits l && nonempty r && all_digits r
       | None => false
       end)
  | EmptyString => false
  end.

(** ** argparse: building a parser *)

(** What [ArgumentParser(prog=...)] returns: [add_help] defaults to [True],
    so the parser starts with the action of [-h]/[--help].  Its [dest] is
    [help], inferred from the long option; its default is
    [argparse.SUPPRESS], where a store action has the default [None]. *)
Definition SUPPRESS : string := "==SUPPRESS==".

Definition help_action : Action :=
  {| option_strings := ["-h"; "--help"]; dest := "help";
     nargs := NargsInt 0; kind := HelpAction |}.

Definition new_ArgumentParser (prog_name : string) : ArgumentParser :=
  {| prog := prog_name; actions := [help_action];
     inst_format_usage := None |}.

(** [_option_string_actions]: every option string with its action. *)
Definition option_string_actions (p : ArgumentParser)
  : list (string * Action) :=
  flat_map (fun a => map (fun s => (s, a)) (option_strings a)) (actions p).

Fixpoint assoc {A} (k : string) (l : list (string * A)) : option A :=
  match l with
  | [] => None
  | (k', v) :: l' => if bool_decide (k' = k) then Some v else assoc k l'
  end.

Definition find_option (p : ArgumentParser) (s : string) : option Action :=
  assoc s (option_string_actions p).

Definition is_positional (a : Action) : bool :=
  match option_strings a with [] => true | _ => false end.

(** [_get_positional_actions] and its complement. *)
Definition positional_actions (p : ArgumentParser) : list Action :=
  filter (fun a => is_positional a = true) (actions p).

Definition with_actions (p : ArgumentParser) (l : list Action)
  : ArgumentParser :=
  {| prog := prog p; actions := l;
     inst_format_usage := inst_format_usage p |}.

(** [parser.add_argument(name_or_flag, nargs=n)] with one name or flag and
    the default store action.  A name that does not start with ['-'] declares
    a positional whose [dest] is the name; a flag declares an optional whose
    [dest] is the flag without its dashes (the first long flag would be
    preferred, but one flag is given).  [_StoreAction] refuses [nargs=0] and
    [_check_conflict] refuses an option string that is already taken. *)
Definition add_argument (name : string) (n : Nargs) (p : ArgumentParser)
  : outcome ArgumentParser :=
  match name with
  | EmptyString => Raise (IndexError "string index out of range")
  | String _ _ =>
      if starts_with_dash name then
        let d := lstrip_dash name in
        match d with
        | EmptyString =>
            Raise (ValueError "dest= is required for options like '-'")
        | String _ _ =>
            match n with
            | NargsInt O =>
                Raise (ValueError "nargs for store actions must be != 0")
            | _ =>
                match find_option p name with
                | Some _ =>
                    Raise (ArgumentError
                             ("conflicting option string: " +:+ name))
                | None =>
                    Return (with_actions p
                      (actions p ++
                       [{| option_strings := [name];
                           dest := dash_to_underscore d;
                           nargs := n; kind := StoreAction |}]))
                end
            end
        end
      else
        match n with
        | NargsInt O =>
            Raise (ValueError "nargs for store actions must be != 0")
        | _ =>
            Return (with_actions p
              (actions p ++
               [{| option_strings := []; dest := name;
                   nargs := n; kind := StoreAction |}]))
        end
  end.

(** ** argparse: classifying the argument strings *)

(** [parser.error(message)] prints the usage and the message on the standard
    error, which is not part of the state here, and exits with status 2. *)
Definition parser_error {A} (message : string) : outcome A :=
  Raise (SystemExit 2).

(** The letters of [arg_strings_pattern]: ['A'] for an argument, ['O'] for an
    option string, ['-'] for the first ["--"]. *)
Inductive tok := TokA | TokO | TokDD.

#[export] Instance tok_eq_dec : EqDecision tok.
Proof. solve_decision. Defined.

(** What [_parse_optional] answers for a string that is an option: the
    action (none for an unknown option), the option string and the explicit
    argument written in the same string, if any. *)
Record option_tuple := {
  ot_action : option Action;
  ot_string : string;
  ot_explicit : option string
}.

(** [_get_option_tuples]: the registered option strings that the string may
    abbreviate.  A string starting with two dashes is split at ['='] and
    matches every option string it is a prefix of; a single-dash string
    matches the short option named by its first two characters, the rest
    being that option's argument, and every option string it is a prefix
    of. *)
Definition get_option_tuples (p : ArgumentParser) (s : string)
  : list option_tuple :=
  if second_is_dash s then
    let '(option_prefix, explicit_arg) :=
      match split_once "="%char s with
      | Some (l, r) => (l, Some r)
      | None => (s, None)
      end in
    flat_map (fun '(os, a) =>
                if String.prefix option_prefix os
                then [{| ot_action := Some a; ot_string := os;
                         ot_explicit := explicit_arg |}]
                else [])
             (option_string_actions p)
  else
    let short_option_prefix := String.substring 0 2 s in
    let short_explicit_arg := String.substring 2 (String.length s - 2) s in
    flat_map (fun '(os, a) =>
                if bool_decide (os = short_option_prefix)
                then [{| ot_action := Some a; ot_string := os;
                         ot_explicit := Some short_explicit_arg |}]
                else if String.prefix s os
                then [{| ot_action := Some a; ot_string := os;
                         ot_explicit := None |}]
                else [])
             (option_string_actions p).

Definition has_negative_number_optionals (p : ArgumentParser) : bool :=
  existsb (fun '(os, _) => looks_like_negative_number os)
          (option_string_actions p).

(** [_parse_optional]: [None] when the string is meant as a positional
    argument, the option tuple otherwise; an ambiguous abbreviation is an
    error. *)
Definition parse_optional (p : ArgumentParser) (s : string)
  : outcome (option option_tuple) :=
  match s with
  | EmptyString => Return None
  | String _ _ =>
      if negb (starts_with_dash s) then Return None
      else
        match find_option p s with
        | Some a =>
            Return (Some {| ot_action := Some a; ot_string := s;
                            ot_explicit := None |})
        | None =>
            if (String.length s =? 1)%nat then Return None
            else
              let by_equals :=
                match split_once "="%char s with
                | Some (os, explicit_arg) =>
                    match find_option p os with
                    | Some a =>
                        Some {| ot_action := Some a; ot_string := os;
                                ot_explicit := Some explicit_arg |}
                    | None => None
                    end
                | None => None
                end in
              match by_equals with
              | Some t => Return (Some t)
              | None =>
                  match get_option_tuples p s with
                  | _ :: _ :: _ =>
                      parser_error ("ambiguous option: " +:+ s)
                  | [t] => Return (Some t)
                  | [] =>
                      if looks_like_negative_number s
                         && negb (has_negative_number_optionals p)
                      then Return None
                      else if contains_char " "%char s then Return None
                      else Return (Some {| ot_action := None;
                                           ot_string := s;
                                           ot_explicit := None |})
                  end
              end
        end
  end.

(** One argument string as [_parse_known_args] sees it: an argument, the
    first ["--"], or an option with its tuple. *)
Inductive token_kind :=
| KArg
| KDoubleDash
| KOption (t : option_tuple).

Record token := {
  tk_string : string;
  tk_kind : token_kind
}.

Definition arg_token (s : string) : token :=
  {| tk_string := s; tk_kind := KArg |}.

Definition letter (tk : token) : tok :=
  match tk_kind tk with
  | KArg => TokA
  | KDoubleDash => TokDD
  | KOption _ => TokO
  end.

(** The first loop of [_parse_known_args]: the first ["--"] is lettered
    ['-'] and everything after it ['A']; every other string is lettered by
    [_parse_optional]. *)
Fixpoint classify (p : ArgumentParser) (arg_strings : list string)
  : outcome (list token) :=
  match arg_strings with
  | [] => Return []
  | s :: rest =>
      if bool_decide (s = "--") then
        Return ({| tk_string := s; tk_kind := KDoubleDash |}
                :: map arg_token rest)
      else
        o ← parse_optional p s;
        toks ← classify p rest;
        Return ({| tk_string := s;
                   tk_kind := match o with
                              | None => KArg
                              | Some t => KOption t
                              end |} :: toks)
  end.

(** ** argparse: matching [nargs] patterns *)

(** The regular expressions of [_get_nargs_pattern] are built from single
    letters, starred letter classes and groups; [ReEnd] closes a group. *)
Inductive re :=
| ReTok (t : tok)
| ReStar (letters : list tok)
| ReEnd.

(** [nargs=N] is one group: a starred dash, then N letters [A] joined by
    starred dashes, then a starred dash; [REMAINDER] is one group, the
    starred class of the three letters.  For an optional the starred dash
    and the dash are deleted from the pattern: the double dash cannot be
    among its arguments. *)
Definition nargs_pattern (a : Action) : list re :=
  match nargs a, is_positional a with
  | NargsInt O, true => [ReStar [TokDD]; ReStar [TokDD]; ReEnd]
  | NargsInt (S n), true =>
      ReStar [TokDD] :: ReTok TokA
      :: flat_map (fun _ => [ReStar [TokDD]; ReTok TokA]) (seq 0 n)
      ++ [ReStar [TokDD]; ReEnd]
  | NargsInt n, false => map (fun _ => ReTok TokA) (seq 0 n) ++ [ReEnd]
  | NargsRemainder, true => [ReStar [TokDD; TokA; TokO]; ReEnd]
  | NargsRemainder, false => [ReStar [TokA; TokO]; ReEnd]
  end.

(** [re.match]: anchored at the start, greedy stars with backtracking.  The
    answer is the length of each group. [n] counts the letters of the group
    being matched. *)
Fixpoint re_match (pattern : list re) : list tok -> nat -> option (list nat) :=
  match pattern with
  | [] => fun _ _ => Some []
  | ReEnd :: pattern' => fun s n => cons n <$> re_match pattern' s 0
  | ReTok t :: pattern' => fun s n =>
      match s with
      | c :: s' => if decide (c = t) then re_match pattern' s' (S n) else None
      | [] => None
      end
  | ReStar letters :: pattern' =>
      fix star (s : list tok) (n : nat) : option (list nat) :=
        match s with
        | c :: s' =>
            if bool_decide (c ∈ letters) then
              match star s' (S n) with
              | Some r => Some r
              | None => re_match pattern' s n
              end
            else re_match pattern' s n
        | [] => re_match pattern' s n
        end
  end.

(** [_match_argument]: how many strings the action takes from the start of
    the pattern; an error when the pattern of its [nargs] does not match. *)
Definition match_argument (a : Action) (s : list tok) : outcome nat :=
  match re_match (nargs_pattern a) s 0 with
  | Some [n] => Return n
  | _ =>
      Raise (ArgumentError
               match nargs a with
               | NargsInt 1 => "expected 1 argument"
               | NargsInt n => "expected " +:+ pretty n +:+ " arguments"
               | NargsRemainder => "expected ... arguments"
               end)
  end.

(** [_match_arguments_partial]: the counts for the longest prefix of the
    positionals whose patterns match together. *)
Fixpoint match_partial_upto (i : nat) (l : list Action) (s : list tok)
  : list nat :=
  match i with
  | O => []
  | S i' =>
      match re_match (flat_map nargs_pattern (take i l)) s 0 with
      | Some counts => counts
      | None => match_partial_upto i' l s
      end
  end.

Definition match_arguments_partial (l : list Action) (s : list tok)
  : list nat :=
  match_partial_upto (length l) l s.

(** ** argparse: consuming the argument strings *)

(** The state of [_parse_known_args]: the namespace, the positionals not yet
    consumed and the strings nothing claimed. *)
Record parse_state := {
  ps_namespace : gmap string pyval;
  ps_positionals : list Action;
  ps_extras : list string
}.

(** [arg_strings.remove('--')] inside a [try]: drops the first ["--"]. *)
Fixpoint remove_first_dd (l : list string) : list string :=
  match l with
  | [] => []
  | s :: l' => if bool_decide (s = "--") then l' else s :: remove_first_dd l'
  end.

(** [_get_values]: an integer [nargs] and [REMAINDER] both give the list of
    the strings; only [REMAINDER] keeps a ["--"]. *)
Definition get_values (a : Action) (arg_strings : list string) : pyval :=
  PyList (map PyStr
            match nargs a with
            | NargsRemainder => arg_strings
            | NargsInt _ => remove_first_dd arg_strings
            end).

(** [take_action]: the store action sets [dest] in the namespace; the help
    action prints the help and exits. *)
Definition take_action (a : Action) (arg_strings : list string)
  (st : parse_state) : outcome parse_state :=
  match kind a with
  | StoreAction =>
      Return {| ps_namespace :=
                  <[dest a := get_values a arg_strings]> (ps_namespace st);
                ps_positionals := ps_positionals st;
                ps_extras := ps_extras st |}
  | HelpAction => Raise (SystemExit 0)
  end.

Definition add_extras (l : list string) (st : parse_state) : parse_state :=
  {| ps_namespace := ps_namespace st;
     ps_positionals := ps_positionals st;
     ps_extras := ps_extras st ++ l |}.

(** [consume_positionals]: match as many positionals as possible against the
    strings from here on, give each its strings, and drop the matched
    positionals.  The answer is the number of strings consumed. *)
Fixpoint take_positionals (l : list Action) (counts : list nat)
  (strings : list string) (st : parse_state) : outcome (nat * parse_state) :=
  match l, counts with
  | a :: l', c :: counts' =>
      st1 ← take_action a (take c strings) st;
      '(n, st2) ← take_positionals l' counts' (drop c strings) st1;
      Return ((c + n)%nat, st2)
  | _, _ => Return (O, st)
  end.

Definition consume_positionals (rest : list token) (st : parse_state)
  : outcome (nat * parse_state) :=
  let counts :=
    match_arguments_partial (ps_positionals st) (map letter rest) in
  '(n, st1) ← take_positionals (ps_positionals st) counts
                               (map tk_string rest) st;
  Return (n, {| ps_namespace := ps_namespace st1;
                ps_positionals := drop (length counts) (ps_positionals st1);
                ps_extras := ps_extras st1 |}).

(** [consume_optional], the branch without an explicit argument: the action
    takes its strings from those that follow the option string. *)
Definition consume_following (a : Action) (following : list token)
  (acc : list (Action * list string))
  : outcome (nat * list (Action * list string)) :=
  arg_count ← match_argument a (map letter following);
  Return (S arg_count,
          acc ++ [(a, take arg_count (map tk_string following))]).

(** [consume_optional], the branch with an explicit argument [e].  An action
    that takes one argument takes [e].  A single-dash action that takes none
    and has a non-empty [e] is followed by more single-dash options in the
    same string: the next one is named by the first character of [e] and the
    rest of [e], if any, is its explicit argument. *)
Definition take_explicit (a : Action) (e : string) (arg_count : nat)
  (acc : list (Action * list string))
  : outcome (nat * list (Action * list string)) :=
  if (arg_count =? 1)%nat then Return (1%nat, acc ++ [(a, [e])])
  else Raise (ArgumentError ("ignored explicit argument " +:+ e)).

Fixpoint consume_explicit (p : ArgumentParser) (a : Action)
  (option_string e : string) (following : list token)
  (acc : list (Action * list string))
  : outcome (nat * list (Action * list string)) :=
  arg_count ← match_argument a [TokA];
  match e with
  | String c e' =>
      if (arg_count =? 0)%nat && negb (second_is_dash option_string) then
        let option_string' := String dash (String c EmptyString) in
        match find_option p option_string' with
        | Some a' =>
            match e' with
            | EmptyString => consume_following a' following (acc ++ [(a, [])])
            | String _ _ =>
                consume_explicit p a' option_string' e' following
                                 (acc ++ [(a, [])])
            end
        | None => Raise (ArgumentError ("ignored explicit argument " +:+ e))
        end
      else take_explicit a e arg_count acc
  | EmptyString => take_explicit a e arg_count acc
  end.

Fixpoint take_actions (l : list (Action * list string)) (st : parse_state)
  : outcome parse_state :=
  match l with
  | [] => Return st
  | (a, args) :: l' => st1 ← take_action a args st; take_actions l' st1
  end.

(** [consume_optional]: an unknown option goes to the extras; a known one
    is given its arguments.  The answer counts the strings consumed, the
    option string included. *)
Definition consume_optional (p : ArgumentParser) (s : string)
  (t : option_tuple) (following : list token) (st : parse_state)
  : outcome (nat * parse_state) :=
  match ot_action t with
  | None => Return (1%nat, add_extras [s] st)
  | Some a =>
      '(n, tuples) ←
        match ot_explicit t with
        | Some e => consume_explicit p a (ot_string t) e following []
        | None => consume_following a following []
        end;
      st1 ← take_actions tuples st;
      Return (n, st1)
  end.

(** The strings before the next option string, that option, and the tokens
    after it; [None] when no option string is left. *)
Fixpoint split_at_option (rest : list token)
  : option (list string * (string * option_tuple) * list token) :=
  match rest with
  | [] => None
  | tk :: rest' =>
      match tk_kind tk with
      | KOption t => Some ([], (tk_string tk, t), rest')
      | _ =>
          match split_at_option rest' with
          | Some (before, o, after) => Some (tk_string tk :: before, o, after)
          | None => None
          end
      end
  end.

(** The main loop of [_parse_known_args],
    [while start_index <= max_option_string_index],
    walked over the strings from [start_index] on.  [skip] counts the strings
    the last round consumed beyond the current one, so a round of the loop
    runs exactly at the indices [start_index] takes.  A round first lets the
    positionals consume the strings before the next option string; if they
    consume none, these strings go to the extras and the option is consumed.
    The loop ends at the first index with no option string after it; the
    answer is the tokens from that index on. *)
Fixpoint walk (p : ArgumentParser) (rest : list token) (skip : nat)
  (st : parse_state) : outcome (list token * parse_state) :=
  match rest with
  | [] => Return ([], st)
  | tk :: rest' =>
      match skip with
      | S skip' => walk p rest' skip' st
      | O =>
          match split_at_option rest with
          | None => Return (rest, st)
          | Some (before, (s, t), after) =>
              '(k, st1) ← match before with
                          | [] => Return (O, st)
                          | _ :: _ => consume_positionals rest st
                          end;
              match k with
              | S k' => walk p rest' k' st1
              | O =>
                  '(c, st2) ← consume_optional p s t after
                                (match before with
                                 | [] => st1
                                 | _ :: _ => add_extras before st1
                                 end);
                  walk p rest' (length before + c - 1) st2
              end
          end
      end
  end.

(** [parse_known_args]: every [dest] that is not suppressed, of an action
    whose default is not suppressed, starts as that default, [None]; after
    the loop the positionals consume what follows the last option, the
    strings left are extras, and a positional that got nothing is required
    and missing.  An [ArgumentError] from the inside becomes a call of
    [parser.error]. *)
Definition default_namespace (p : ArgumentParser) : gmap string pyval :=
  foldl (fun ns a =>
           if bool_decide (dest a = SUPPRESS) then ns
           else match kind a, ns !! dest a with
                | StoreAction, None => <[dest a := PyNone]> ns
                | _, _ => ns
                end) ∅ (actions p).

Definition parse_known_args_inner (p : ArgumentParser)
  (arg_strings : list string) : outcome (gmap string pyval * list string) :=
  toks ← classify p arg_strings;
  '(rest, st1) ← walk p toks 0
                   {| ps_namespace := default_namespace p;
                      ps_positionals := positional_actions p;
                      ps_extras := [] |};
  '(n, st2) ← consume_positionals rest st1;
  let st3 := add_extras (drop n (map tk_string rest)) st2 in
  match ps_positionals st3 with
  | _ :: _ => parser_error "the following arguments are required"
  | [] => Return (ps_namespace st3, ps_extras st3)
  end.

Definition parse_known_args (p : ArgumentParser) (arg_strings : list string)
  : outcome (gmap string pyval * list string) :=
  match parse_known_args_inner p arg_strings with
  | Raise (ArgumentError message) => parser_error message
  | o => o
  end.

(** [parse_args]: extras are an error. *)
Definition parse_args (p : ArgumentParser) (arg_strings : list string)
  : outcome (gmap string pyval) :=
  '(ns, extras) ← parse_known_args p arg_strings;
  match extras with
  | [] => Return ns
  | _ :: _ => parser_error "unrecognized arguments"
  end.

(** ** String formatting *)

Definition newline : string := String "010"%char EmptyString.

Fixpoint repeat_char (c : ascii) (n : nat) : string :=
  match n with
  | O => EmptyString
  | S n' => String c (repeat_char c n')
  end.

(** The leading decimal digits of a string, as a number, and what follows
    them. *)
Fixpoint read_digits (acc : nat) (s : string) : nat * string :=
  match s with
  | String c s' =>
      if is_digit c
      then read_digits (10 * acc + (nat_of_ascii c - 48)) s'
      else (acc, s)
  | EmptyString => (acc, s)
  end.

(** [str(v)] for the values that can reach a format call here. *)
Definition py_str (v : pyval) : outcome string :=
  match v with
  | PyStr s => Return s
  | PyInt z => Return (pretty z)
  | PyNone => Return "None"
  | _ => Raise (TypeError "value is not formatted by this module")
  end.

Definition is_align (c : ascii) : bool :=
  bool_decide (c = "<"%char) || bool_decide (c = ">"%char)
  || bool_decide (c = "^"%char) || bool_decide (c = "="%char).

(** The padding of the format mini-language: [>] pads on the left, [<] on
    the right, [^] puts the smaller half on the left.  The width counts
    characters; a string here is a string of one-byte characters. *)
Definition pad (fill align : ascii) (width : nat) (s : string) : string :=
  let total := (width - String.length s)%nat in
  let left :=
    if bool_decide (align = ">"%char) then total
    else if bool_decide (align = "^"%char) then (total / 2)%nat
    else O in
  repeat_char fill left +:+ s +:+ repeat_char fill (total - left).

(** The largest width a format specification can carry: [sys.maxsize] of a
    64-bit interpreter. *)
Definition sys_maxsize : Z := (2 ^ 63 - 1)%Z.

(** The alignment [=] of a number: the padding goes between the sign and
    the digits. *)
Definition pad_sign_aware (fill : ascii) (width : nat) (z : Z) : string :=
  let sign := if (z <? 0)%Z then String dash EmptyString else EmptyString in
  let digits := pretty (Z.abs z) in
  sign
  +:+ repeat_char fill (width - String.length sign - String.length digits)
  +:+ digits.

(** [format(v, spec)] for a string or an integer and a specification of the
    shape [[[fill]align][0][width]]; the empty specification is [str(v)].
    A [0] before the width, when no fill is given, fills with zeros and
    makes [=] the alignment of a number that has none.  A width above
    [sys.maxsize] has too many digits. *)
Definition py_format (v : pyval) (spec : string) : outcome string :=
  match spec with
  | EmptyString => py_str v
  | String c0 rest0 =>
      let '(fill, align, rest) :=
        match rest0 with
        | String c1 rest1 =>
            if is_align c1 then (Some c0, Some c1, rest1)
            else if is_align c0 then (None, Some c0, rest0)
            else (None, None, spec)
        | EmptyString =>
            if is_align c0 then (None, Some c0, rest0)
            else (None, None, spec)
        end in
      let '(zero, rest) :=
        match fill, rest with
        | None, String c rest' =>
            if bool_decide (c = "0"%char) then (true, rest')
            else (false, rest)
        | _, _ => (false, rest)
        end in
      let fill_char :=
        match fill with
        | Some c => c
        | None => if zero then "0"%char else " "%char
        end in
      let '(width, tail) := read_digits 0 rest in
      if (sys_maxsize <? Z.of_nat width)%Z then
        Raise (ValueError "Too many decimal digits in format string")
      else
        match v, tail with
        | PyStr s, EmptyString =>
            match align with
            | Some a =>
                if bool_decide (a = "="%char)
                then Raise (ValueError
                       "'=' alignment not allowed in string format specifier")
                else Return (pad fill_char a width s)
            | None => Return (pad fill_char "<"%char width s)
            end
        | PyInt z, EmptyString =>
            match align with
            | Some a =>
                if bool_decide (a = "="%char)
                then Return (pad_sign_aware fill_char width z)
                else Return (pad fill_char a width (pretty z))
            | None =>
                if zero then Return (pad_sign_aware fill_char width z)
                else Return (pad fill_char ">"%char width (pretty z))
            end
        | (PyStr _ | PyInt _), String _ _ =>
            Raise (ValueError "Invalid format specifier")
        | _, _ => Raise (TypeError "unsupported format string")
        end
  end.

(** [template.format( *args )] for templates whose replacement fields are
    numbered, with an optional specification that may itself hold numbered
    fields: one pass over the template. *)
Inductive format_mode :=
| MText
| MOpen                                   (* a brace was opened *)
| MClose                                  (* a closing brace outside a field *)
| MName (field : nat)                     (* reading the field number *)
| MSpec (field : nat) (spec : string)     (* reading the specification *)
| MNested (field : nat) (spec : string) (inner : option nat).

Definition digit_value (c : ascii) : nat := nat_of_ascii c - 48.

Definition format_arg (args : list pyval) (i : nat) (spec : string)
  : outcome string :=
  match args !! i with
  | Some v => py_format v spec
  | None => Raise (IndexError "tuple index out of range")
  end.

Fixpoint str_format_from (mode : format_mode) (out : string)
  (template : string) (args : list pyval) : outcome string :=
  match template with
  | EmptyString =>
      match mode with
      | MText => Return out
      | MClose => Raise (ValueError "Single '}' encountered in format string")
      | _ => Raise (ValueError "expected '}' before end of string")
      end
  | String c rest =>
      let open := bool_decide (c = "{"%char) in
      let close := bool_decide (c = "}"%char) in
      match mode with
      | MText =>
          if open then str_format_from MOpen out rest args
          else if close then str_format_from MClose out rest args
          else str_format_from MText (out +:+ String c EmptyString) rest args
      | MOpen =>
          if open then str_format_from MText (out +:+ "{") rest args
          else if is_digit c
          then str_format_from (MName (digit_value c)) out rest args
          else Raise (ValueError "only numbered fields are modelled")
      | MClose =>
          if close then str_format_from MText (out +:+ "}") rest args
          else Raise (ValueError "Single '}' encountered in format string")
      | MName i =>
          if is_digit c
          then str_format_from (MName (10 * i + digit_value c)) out rest args
          else if bool_decide (c = ":"%char)
          then str_format_from (MSpec i EmptyString) out rest args
          else if close then
            s ← format_arg args i EmptyString;
            str_format_from MText (out +:+ s) rest args
          else Raise (ValueError "only numbered fields are modelled")
      | MSpec i spec =>
          if open then str_format_from (MNested i spec None) out rest args
          else if close then
            s ← format_arg args i spec;
            str_format_from MText (out +:+ s) rest args
          else str_format_from (MSpec i (spec +:+ String c EmptyString))
                               out rest args
      | MNested i spec inner =>
          if is_digit c then
            str_format_from
              (MNested i spec
                 (Some (10 * default 0 inner + digit_value c))) out rest args
          else if close then
            match inner with
            | Some j =>
                s ← format_arg args j EmptyString;
                str_format_from (MSpec i (spec +:+ s)) out rest args
            | None => Raise (ValueError "only numbered fields are modelled")
            end
          else Raise (ValueError "only numbered fields are modelled")
      end
  end.

Definition str_format (template : string) (args : list pyval)
  : outcome string :=
  str_format_from MText EmptyString template args.

(** [template % args] for templates whose conversions are [%s] and [%%]. *)
Fixpoint str_mod_from (out : string) (template : string) (args : list pyval)
  : outcome string :=
  match template with
  | EmptyString =>
      match args with
      | [] => Return out
      | _ :: _ =>
          Raise (TypeError
                   "not all arguments converted during string formatting")
      end
  | String c rest =>
      if bool_decide (c = "%"%char) then
        match rest with
        | String c' rest' =>
            if bool_decide (c' = "%"%char)
            then str_mod_from (out +:+ "%") rest' args
            else if bool_decide (c' = "s"%char) then
              match args with
              | v :: args' =>
                  s ← py_str v; str_mod_from (out +:+ s) rest' args'
              | [] =>
                  Raise (TypeError "not enough arguments for format string")
              end
            else Raise (ValueError "only %s conversions are modelled")
        | EmptyString => Raise (ValueError "incomplete format")
        end
      else str_mod_from (out +:+ String c EmptyString) rest args
  end.

Definition str_mod (template : string) (args : list pyval) : outcome string :=
  str_mod_from EmptyString template args.

(** ** The host's side of a command *)

(** Modelled from the spec: the base class [CrashCommand] comes from the
    module [crashcommand], which is not among the sources at hand.  The
    command "is explicitly designed to be imported by" the host runtime: the
    base constructor registers the instance with the host under the given
    name, together with the parser of its arguments. *)
Definition CrashCommand__init__ (self : pyval) (name : string)
  (parser : ArgumentParser) : Py unit := fun st =>
  (set_commands
     (commands st ++ [(name, {| cmd_self := self; cmd_parser := parser |})])
     st,
   Return tt).

(** The number of commands the host holds under a name. *)
Definition registered (name : string) (st : interp) : nat :=
  length (filter (fun c => c.1 = name) (commands st)).

(** ** class FilesCommand *)

Module FilesCommand.

(** The value of the lambda assigned to [parser.format_usage]. *)
Definition usage_text : string :=
  "files [-d dentry] | [-R reference] [pid | taskp] ..." +:+ newline.

(** [parser.format_usage = lambda : "..."]: an attribute of the instance,
    a function of no argument with no free variable. *)
Definition set_format_usage (f : unit -> string) (p : ArgumentParser)
  : ArgumentParser :=
  {| prog := prog p; actions := actions p; inst_format_usage := Some f |}.

(** The parser that [__init__] builds, statement by statement.  The name
    [argparse] is loaded for [argparse.ArgumentParser] and again for
    [argparse.REMAINDER]; what it is bound to is taken to be the module. *)
Definition build_parser : Py ArgumentParser :=
  _ ← load_global "argparse";
  parser ← mret (new_ArgumentParser "files");
  parser ← lift (add_argument "-d" (NargsInt 1) parser);
  parser ← lift (add_argument "-R" (NargsInt 1) parser);
  _ ← load_global "argparse";
  parser ← lift (add_argument "args" NargsRemainder parser);
  mret (set_format_usage (fun _ => usage_text) parser).

(** [FilesCommand.__init__(self)]. *)
Definition __init__ (self : pyval) : Py unit :=
  parser ← build_parser;
  _ ← load_global "CrashCommand";
  CrashCommand__init__ self "files" parser.

Definition vaddrfmt : string := "{1:^{0}}".

(** [FilesCommand.execute(self, argv)]: the body builds [files_header] and
    ends; the operands of [%] are evaluated left to right, each
    [vaddrfmt.format(sz, ...)] loading the global [sz] first. *)
Definition execute (self argv : pyval) : Py pyval :=
  sz ← load_global "sz";
  file ← lift (str_format vaddrfmt [sz; PyStr "FILE"]);
  sz ← load_global "sz";
  dentry ← lift (str_format vaddrfmt [sz; PyStr "DENTRY"]);
  sz ← load_global "sz";
  inode ← lift (str_format vaddrfmt [sz; PyStr "INODE"]);
  files_header ← lift (str_mod " FD %s %s %s TYPE PATH"
                               [PyStr file; PyStr dentry; PyStr inode]);
  mret PyNone.

End FilesCommand.

(** ** The module's top level *)

(** The namespace a module starts with. *)
Definition fresh_namespace : gmap string pyval :=
  {[ "__name__" := PyStr "crash.commands.files";
     "__doc__" := PyNone;
     "__package__" := PyStr "crash.commands";
     "__file__" := PyStr "crash/commands/files.py";
     "__builtins__" := PyModule "builtins" ]}.

(** The statements of [files.py] in order: four imports, the lookup of
    the pointer type to [char], the class statement, which loads its base
    [CrashCommand], and the call [FilesCommand()]. *)
Definition module_body : Py unit :=
  gdb ← import_module "gdb";
  store_global "gdb" gdb;;
  _ ← import_module "crashcommand";
  store_global "CrashCommand" (PyClass "CrashCommand");;
  argparse ← import_module "argparse";
  store_global "argparse" argparse;;
  _ ← import_module "crash.cache.syms";
  store_global "get_value" (PyFunction "get_value");;
  char ← gdb_lookup_type "char";
  store_global "charp" (PyGdbType (TPointer char));;
  _ ← load_global "CrashCommand";
  store_global "FilesCommand" (PyClass "FilesCommand");;
  _ ← load_global "FilesCommand";
  FilesCommand.__init__ (PyInstance "FilesCommand").

(** [import crash.commands.files]: the body runs in a fresh namespace. *)
Definition import_files : Py unit := fun st =>
  module_body (set_globals fresh_namespace st).

(** [parser.format_usage()]: the attribute of the instance when there is
    one, the method of the class otherwise. *)
Definition format_usage (class_format_usage : ArgumentParser -> string)
  (p : ArgumentParser) : string :=
  match inst_format_usage p with
  | Some f => f tt
  | None => class_format_usage p
  end.

(** ** What the statements below are about *)

(** A statement run from a state that satisfies [P] ends, returning or
    raising, in a state and with an outcome that satisfy [Q]. *)
Definition triple {A} (P : interp -> Prop) (m : Py A)
  (Q : interp -> outcome A -> Prop) : Prop :=
  forall st, P st -> Q (m st).1 (m st).2.

(** A statement that leaves the state as it is. *)
Definition stateless {A} (m : Py A) : Prop :=
  forall st, (m st).1 = st.

(** The three arguments [__init__] declares. *)
Definition d_action : Action :=
  {| option_strings := ["-d"]; dest := "d";
     nargs := NargsInt 1; kind := StoreAction |}.

Definition R_action : Action :=
  {| option_strings := ["-R"]; dest := "R";
     nargs := NargsInt 1; kind := StoreAction |}.

Definition args_action : Action :=
  {| option_strings := []; dest := "args";
     nargs := NargsRemainder; kind := StoreAction |}.

(** The parser of the command, as a value. *)
Definition files_parser : ArgumentParser :=
  {| prog := "files";
     actions := [help_action; d_action; R_action; args_action];
     inst_format_usage := Some (fun _ => FilesCommand.usage_text) |}.

(** The command object that the import registers. *)
Definition files_command : command :=
  {| cmd_self := PyInstance "FilesCommand"; cmd_parser := files_parser |}.

(** An argument string that [argparse] cannot take for an option: it does
    not start with a dash. *)
Definition plain (s : string) : Prop := starts_with_dash s = false.

(** The argument vectors of the grammar: [-d value] and [-R value], each
    present or not and in either order, then the positional arguments. *)
Definition flag_strings (flag : string) (value : option string)
  : list string :=
  match value with
  | Some v => [flag; v]
  | None => []
  end.

Definition shaped_argv (d_first : bool) (d R : option string)
  (positional : list string) : list string :=
  (if d_first
   then flag_strings "-d" d ++ flag_strings "-R" R
   else flag_strings "-R" R ++ flag_strings "-d" d) ++ positional.

(** The namespace [parse_args] answers for such a vector: a flag that is
    absent leaves [None], a flag that is present stores the list of its one
    value, and [args] is the list of the positional arguments. *)
Definition flag_value (value : option string) : pyval :=
  match value with
  | Some v => PyList [PyStr v]
  | None => PyNone
  end.

Definition parsed_namespace (d R : option string) (positional : list string)
  : gmap string pyval :=
  <["args" := PyList (map PyStr positional)]>
    (<["R" := flag_value R]> (<["d" := flag_value d]> ∅)).

(** What can happen to a parser after [__init__]: more arguments are
    declared, its [prog] is changed, argument vectors are parsed. *)
Inductive parser_op :=
| OpAddArgument (name : string) (n : Nargs)
| OpSetProg (prog_name : string)
| OpParseArgs (arg_strings : list string).

Definition apply_op (p : ArgumentParser) (op : parser_op) : ArgumentParser :=
  match op with
  | OpAddArgument name n =>
      match add_argument name n p with
      | Return p' => p'
      | Raise _ => p
      end
  | OpSetProg prog_name =>
      {| prog := prog_name; actions := actions p;
         inst_format_usage := inst_format_usage p |}
  | OpParseArgs arg_strings =>
      match parse_args p arg_strings with
      | Return _ | Raise _ => p
      end
  end.

(** A gdb session that can load the module: the four modules are there and
    gdb knows [char]. *)
Definition gdb_session : interp :=
  {| importable := {[ "gdb"; "crashcommand"; "argparse"; "crash.cache.syms" ]};
     gdb_types := {[ "char" := TNamed "char" ]};
     builtins := {[ "print"; "len"; "str"; "int"; "hex"; "format" ]};
     globals := ∅;
     commands := [];
     stdout := [] |}.

(** The same session with no symbol table: gdb does not know [char]. *)
Definition gdb_without_symbols : interp :=
  {| importable := importable gdb_session;
     gdb_types := ∅;
     builtins := builtins gdb_session;
     globals := ∅;
     commands := [];
     stdout := [] |}.

(** The session once the module has been imported. *)
Definition loaded_session : interp := (import_files gdb_session).1.

(** The token of a flag that is an option string of the action [a], and
    the state after [a] has stored the strings [args]. *)
Definition flag_token (flag : string) (a : Action) : token :=
  {| tk_string := flag;
     tk_kind := KOption {| ot_action := Some a; ot_string := flag;
                           ot_explicit := None |} |}.

Definition store (a : Action) (args : list string) (st : parse_state)
  : parse_state :=
  {| ps_namespace := <[dest a := PyList (map PyStr args)]> (ps_namespace st);
     ps_positionals := ps_positionals st;
     ps_extras := ps_extras st |}.

(** ** What the further properties are about *)

(** The modules the top level imports, in the order of the source. *)
Definition imported_modules : list string :=
  ["gdb"; "crashcommand"; "argparse"; "crash.cache.syms"].

(** The outcome of the import as the host decides it: the first module it
    cannot supply, then the type [char]. *)
Definition expected_import_outcome (st : interp) : outcome unit :=
  match find (fun m => bool_decide (m ∉ importable st)) imported_modules with
  | Some m => Raise (ImportError m)
  | None =>
      match gdb_types st !! "char" with
      | Some _ => Return tt
      | None => Raise (GdbError "No type named char.")
      end
  end.

(** The namespace of the module once its body has run to the end, [t] being
    gdb's type [char]. *)
Definition loaded_namespace (t : gdb_type) : gmap string pyval :=
  <["FilesCommand" := PyClass "FilesCommand"]>
    (<["charp" := PyGdbType (TPointer t)]>
       (<["get_value" := PyFunction "get_value"]>
          (<["argparse" := PyModule "argparse"]>
             (<["CrashCommand" := PyClass "CrashCommand"]>
                (<["gdb" := PyModule "gdb"]> fresh_namespace))))).

(** The names the module can bind. *)
Definition module_names : gset string :=
  dom fresh_namespace
  ∪ {[ "gdb"; "CrashCommand"; "argparse"; "get_value"; "charp";
       "FilesCommand" ]}.

(** A sequence of flags with their values: [true] stands for [-d] and
    [false] for [-R]. *)
Definition flag_name (is_d : bool) : string := if is_d then "-d" else "-R".

Definition flag_action (is_d : bool) : Action :=
  if is_d then d_action else R_action.

Definition flag_sequence (flags : list (bool * string)) : list string :=
  flat_map (fun '(is_d, v) => [flag_name is_d; v]) flags.

(** The value a flag has after the sequence: that of its last occurrence. *)
Fixpoint last_value (is_d : bool) (flags : list (bool * string))
  : option string :=
  match flags with
  | [] => None
  | (b, v) :: flags' =>
      match last_value is_d flags' with
      | Some v' => Some v'
      | None => if bool_decide (b = is_d) then Some v else None
      end
  end.

(** A session whose host lacks the module [crashcommand]. *)
Definition gdb_without_crashcommand : interp :=
  {| importable := {[ "gdb"; "argparse"; "crash.cache.syms" ]};
     gdb_types := gdb_types gdb_session;
     builtins := builtins gdb_session;
     globals := ∅;
     commands := [];
     stdout := [] |}.

(** The loaded session with [sz] bound to a width. *)
Definition session_with_sz (width : nat) : interp :=
  set_globals (<["sz" := PyInt (Z.of_nat width)]> (globals loaded_session))
              loaded_session.

(** The tokens of a flag sequence and the state after its values have been
    stored. *)
Definition flag_tokens (flags : list (bool * string)) : list token :=
  flat_map (fun '(is_d, v) =>
              [flag_token (flag_name is_d) (flag_action is_d); arg_token v])
           flags.

Definition store_flags (flags : list (bool * string)) (st : parse_state)
  : parse_state :=
  foldl (fun st '(is_d, v) => store (flag_action is_d) [v] st) st flags.

(** What follows a flag that is left without a value: nothing, another
    flag of the command, or the double dash. *)
Definition no_value (rest : list string) : Prop :=
  match rest with
  | [] => True
  | s :: _ => s = "-d" \/ s = "-R" \/ s = "--"
  end.

(** The two spellings of the help option. *)
Definition is_help (s : string) : Prop := s = "-h" \/ s = "--help".




(** A string of ASCII characters: one byte is one character. *)
Fixpoint is_ascii (s : string) : bool :=
  match s with
  | EmptyString => true
  | String c s' => (nat_of_ascii c <? 128)%nat && is_ascii s'
  end.

(** * Properties *)

(** ** Rules for statements *)

Section Rules.
Context {A B : Type}.
Implicit Types (m : Py A) (f : A -> Py B) (P I : interp -> Prop).

Lemma bind_return m f st st' a :
  m st = (st', Return a) -> (m ≫= f) st = f a st'.
Proof. intros E. unfold mbind, Py_bind. by rewrite E. Qed.

Lemma bind_raise m f st st' e :
  m st = (st', Raise e) -> (m ≫= f) st = (st', Raise e).
Proof. intros E. unfold mbind, Py_bind. by rewrite E. Qed.

Lemma triple_bind P (R : A -> interp -> Prop) Q m f :
  triple P m (fun st o => match o with
                          | Return a => R a st
                          | Raise e => Q st (Raise e)
                          end) ->
  (forall a, triple (R a) (f a) Q) ->
  triple P (m ≫= f) Q.
Proof.
  intros Hm Hf st HP. specialize (Hm st HP).
  destruct (m st) as [st' [a | e]] eqn:E; simpl in Hm.
  - rewrite (bind_return _ _ _ _ _ E). by apply Hf.
  - by rewrite (bind_raise _ _ _ _ _ E).
Qed.

(** The same with one invariant before, between and after. *)
Lemma triple_bind_inv I Q m f :
  triple I m (fun st _ => I st) ->
  (forall st e, I st -> Q st (Raise e)) ->
  (forall a, triple I (f a) Q) ->
  triple I (m ≫= f) Q.
Proof.
  intros Hm Hraise Hf. apply triple_bind with (R := fun _ => I); [|done].
  intros st HI. specialize (Hm st HI). destruct (m st).2; auto.
Qed.

Lemma stateless_bind m f :
  stateless m -> (forall a, stateless (f a)) -> stateless (m ≫= f).
Proof.
  intros Hm Hf st. specialize (Hm st).
  destruct (m st) as [st' [a | e]] eqn:E; simpl in Hm; subst st'.
  - rewrite (bind_return _ _ _ _ _ E). apply Hf.
  - by rewrite (bind_raise _ _ _ _ _ E).
Qed.

Lemma triple_stateless I m : stateless m -> triple I m (fun st _ => I st).
Proof. intros Hm st HI. by rewrite Hm. Qed.

End Rules.

Lemma ret_bind {A B} (a : A) (f : A -> Py B) st : (mret a ≫= f) st = f a st.
Proof. reflexivity. Qed.

Lemma lift_bind {A B} (o : outcome A) (a : A) (f : A -> Py B) st :
  o = Return a -> (lift o ≫= f) st = f a st.
Proof. by intros ->. Qed.

Lemma triple_weaken {A} (P : interp -> Prop) (Q Q' : interp -> outcome A -> Prop)
  (m : Py A) :
  (forall st o, Q st o -> Q' st o) -> triple P m Q -> triple P m Q'.
Proof. intros HQ Hm st HP. apply HQ, Hm, HP. Qed.

Lemma stateless_ret {A} (a : A) : stateless (mret a : Py A).
Proof. by intros st. Qed.

Lemma stateless_lift {A} (o : outcome A) : stateless (lift o).
Proof. by intros st. Qed.

Lemma stateless_load_global name : stateless (load_global name).
Proof.
  intros st. unfold load_global.
  destruct (globals st !! name); [done|]. by case_decide.
Qed.

Lemma stateless_import_module name : stateless (import_module name).
Proof. intros st. unfold import_module. by case_decide. Qed.

Lemma stateless_host_lookup_type name : stateless (host_lookup_type name).
Proof. intros st. unfold host_lookup_type. by destruct (gdb_types st !! name). Qed.

Lemma stateless_gdb_lookup_type name : stateless (gdb_lookup_type name).
Proof.
  apply stateless_bind; [apply stateless_load_global|].
  intros _. apply stateless_host_lookup_type.
Qed.

Create HintDb stateless.
#[export] Hint Resolve stateless_ret stateless_lift stateless_load_global
  stateless_import_module stateless_host_lookup_type
  stateless_gdb_lookup_type : stateless.

Ltac stateless_steps :=
  repeat (apply stateless_bind; [solve [auto with stateless]|intros ?]);
  auto with stateless.

(** [build_parser] only reads the name [argparse]; [execute] only reads
    [sz]: neither assigns, registers or prints. *)
Lemma stateless_build_parser : stateless FilesCommand.build_parser.
Proof. unfold FilesCommand.build_parser. stateless_steps. Qed.

Lemma stateless_execute self argv : stateless (FilesCommand.execute self argv).
Proof. unfold FilesCommand.execute. stateless_steps. Qed.

#[export] Hint Resolve stateless_build_parser stateless_execute : stateless.

(** ** The module's top level, step by step *)

Lemma triple_store_global (I : interp -> Prop) name v :
  (forall st, I st -> I (set_globals (<[name := v]> (globals st)) st)) ->
  triple I (store_global name v) (fun st _ => I st).
Proof. intros H st HI. by apply H. Qed.

Lemma triple_CrashCommand__init__ (I : interp -> Prop) self name parser :
  (forall st, I st ->
     I (set_commands
          (commands st ++ [(name, {| cmd_self := self; cmd_parser := parser |})])
          st)) ->
  triple I (CrashCommand__init__ self name parser) (fun st _ => I st).
Proof. intros H st HI. by apply H. Qed.

(** One step of a proof that every statement on the way keeps [I]. *)
Ltac keep_invariant :=
  lazymatch goal with
  | |- triple _ (mbind _ _) _ =>
      apply triple_bind_inv;
      [ first [ apply triple_stateless; solve [auto with stateless]
              | apply triple_store_global
              | apply triple_CrashCommand__init__ ]
      | | intros ? ]
  | |- triple _ (store_global _ _) _ => apply triple_store_global
  | |- triple _ (CrashCommand__init__ _ _ _) _ =>
      apply triple_CrashCommand__init__
  | |- triple _ _ _ => apply triple_stateless; solve [auto with stateless]
  end.

(** No statement of the module binds the name [sz], whether the import
    succeeds or stops at an exception. *)
Lemma module_body_never_binds_sz (B : gset string) :
  triple (fun st => globals st !! "sz" = None /\ builtins st = B)
         module_body
         (fun st _ => globals st !! "sz" = None /\ builtins st = B).
Proof.
  unfold module_body, FilesCommand.__init__.
  repeat (keep_invariant; try done);
    intros st [Hsz HB]; (split; [|done]); simpl;
    by rewrite ?lookup_insert_ne.
Qed.

Lemma fresh_namespace_no_sz : fresh_namespace !! "sz" = None.
Proof. reflexivity. Qed.

Lemma import_never_binds_sz st0 :
  globals (import_files st0).1 !! "sz" = None
  /\ builtins (import_files st0).1 = builtins st0.
Proof.
  apply (module_body_never_binds_sz (builtins st0)
           (set_globals fresh_namespace st0)).
  split; [apply fresh_namespace_no_sz | done].
Qed.

(** The first thing [execute] does is to load [sz]. *)
Lemma execute_unbound_sz self argv st :
  globals st !! "sz" = None -> "sz" ∉ builtins st ->
  FilesCommand.execute self argv st = (st, Raise (NameError "sz")).
Proof.
  intros Hg Hb. unfold FilesCommand.execute.
  apply bind_raise. unfold load_global. rewrite Hg. by rewrite decide_False.
Qed.

(** When gdb does not know the type, [gdb.lookup_type] raises: [NameError]
    if [gdb] itself is unbound, [gdb.error] otherwise. *)
Lemma gdb_lookup_type_unknown name st :
  gdb_types st !! name = None ->
  exists e, gdb_lookup_type name st = (st, Raise e).
Proof.
  intros Hty. unfold gdb_lookup_type.
  destruct (load_global "gdb" st) as [st' [v | e]] eqn:E;
    pose proof (stateless_load_global "gdb" st) as Hst;
    rewrite E in Hst; simpl in Hst; subst st'.
  - rewrite (bind_return _ _ _ _ _ E). unfold host_lookup_type.
    rewrite Hty. eauto.
  - rewrite (bind_raise _ _ _ _ _ E). eauto.
Qed.

(** Without the type [char] the module body stops at an exception before
    the class is bound and before anything is registered. *)
Lemma module_body_without_char (c0 : list (string * command)) :
  let I := fun st => commands st = c0 /\ gdb_types st !! "char" = None
                     /\ globals st !! "FilesCommand" = None in
  triple I module_body (fun st o => I st /\ is_return o = false).
Proof.
  intros I. unfold module_body.
  do 8 (keep_invariant;
        try solve [ by intros st e HI
                  | intros st (Hc & Hty & Hcls); repeat split; simpl;
                    try done; by rewrite lookup_insert_ne ]).
  apply triple_bind with (R := fun _ _ => False); [|by intros ? ? []].
  intros st HI. destruct (gdb_lookup_type_unknown "char" st) as [e E].
  { apply HI. }
  rewrite E. simpl. done.
Qed.

(** The three [add_argument] calls of [__init__], one after the other. *)
Lemma add_argument_d :
  add_argument "-d" (NargsInt 1) (new_ArgumentParser "files")
  = Return {| prog := "files"; actions := [help_action; d_action];
              inst_format_usage := None |}.
Proof. reflexivity. Qed.

Lemma add_argument_R :
  add_argument "-R" (NargsInt 1)
    {| prog := "files"; actions := [help_action; d_action];
       inst_format_usage := None |}
  = Return {| prog := "files"; actions := [help_action; d_action; R_action];
              inst_format_usage := None |}.
Proof. reflexivity. Qed.

Lemma add_argument_args :
  add_argument "args" NargsRemainder
    {| prog := "files"; actions := [help_action; d_action; R_action];
       inst_format_usage := None |}
  = Return {| prog := "files";
              actions := [help_action; d_action; R_action; args_action];
              inst_format_usage := None |}.
Proof. reflexivity. Qed.

(** [build_parser] returns [files_parser] whenever the name [argparse] is
    bound, and raises [NameError] otherwise. *)
Lemma build_parser_spec st :
  FilesCommand.build_parser st =
  (st, match (load_global "argparse" st).2 with
       | Return _ => Return files_parser
       | Raise e => Raise e
       end).
Proof.
  unfold FilesCommand.build_parser.
  destruct (load_global "argparse" st) as [st' [v | e]] eqn:E;
    pose proof (stateless_load_global "argparse" st) as Hst;
    rewrite E in Hst; simpl in Hst; subst st'; simpl.
  - rewrite (bind_return _ _ _ _ _ E).
    rewrite ret_bind, (lift_bind _ _ _ _ add_argument_d).
    rewrite (lift_bind _ _ _ _ add_argument_R).
    rewrite (bind_return _ _ _ _ _ E).
    by rewrite (lift_bind _ _ _ _ add_argument_args).
  - by rewrite (bind_raise _ _ _ _ _ E).
Qed.

Lemma build_parser_returns st st' p :
  FilesCommand.build_parser st = (st', Return p) -> p = files_parser.
Proof.
  rewrite build_parser_spec. destruct (load_global "argparse" st).2; congruence.
Qed.

(** A module body that returns has appended exactly the [files] command to
    the commands of the host. *)
Lemma module_body_registers (c0 : list (string * command)) :
  triple (fun st => commands st = c0) module_body
         (fun st o => is_return o = true ->
                      commands st = c0 ++ [("files", files_command)]).
Proof.
  unfold module_body.
  do 13 (keep_invariant; try solve [ done | by intros st e HI ]).
  unfold FilesCommand.__init__.
  apply triple_bind with (R := fun p st => commands st = c0 /\ p = files_parser).
  - intros st HI. rewrite build_parser_spec. simpl.
    by destruct (load_global "argparse" st).2.
  - intros p. apply triple_bind with
      (R := fun _ st => commands st = c0 /\ p = files_parser).
    + intros st HI. rewrite stateless_load_global.
      by destruct (load_global "CrashCommand" st).2.
    + intros _ st [Hc ->] _. simpl. by rewrite Hc.
Qed.

(** One statement that returns, run inside a sequence. *)
Ltac run_import :=
  unfold import_module; simpl importable;
  rewrite decide_True by assumption; reflexivity.

Ltac run_load :=
  unfold load_global; simpl globals;
  rewrite ?lookup_insert_ne by done; rewrite lookup_insert_eq; reflexivity.

Ltac run_store := reflexivity.

Ltac run_step tac := erewrite bind_return; [|tac].

(** On a host that supplies the four modules and knows [char], the import
    returns. *)
Lemma import_files_succeeds st0 t :
  "gdb" ∈ importable st0 -> "crashcommand" ∈ importable st0 ->
  "argparse" ∈ importable st0 -> "crash.cache.syms" ∈ importable st0 ->
  gdb_types st0 !! "char" = Some t ->
  (import_files st0).2 = Return tt.
Proof.
  intros Hgdb Hcc Harg Hsyms Hchar.
  unfold import_files, module_body.
  run_step run_import. run_step run_store.
  run_step run_import. run_step run_store.
  run_step run_import. run_step run_store.
  run_step run_import. run_step run_store.
  run_step ltac:(unfold gdb_lookup_type; run_step run_load;
                 unfold host_lookup_type; simpl gdb_types; rewrite Hchar;
                 reflexivity).
  run_step run_store. run_step run_load. run_step run_store.
  run_step run_load.
  unfold FilesCommand.__init__.
  erewrite bind_return.
  2:{ rewrite build_parser_spec.
      match goal with |- context [load_global ?n ?s] =>
        assert (load_global n s = (s, Return (PyModule "argparse"))) as ->
          by run_load end.
      reflexivity. }
  run_step run_load. reflexivity.
Qed.

(** ** The parser on the argument vectors of the grammar *)

(** A plain string is lettered [A]: it is not the double dash and
    [_parse_optional] takes it for a positional argument. *)
Lemma plain_not_double_dash s : plain s -> s <> "--".
Proof. intros H ->. discriminate H. Qed.

Lemma parse_optional_plain p s : plain s -> parse_optional p s = Return None.
Proof.
  unfold plain, parse_optional. destruct s as [|c s]; [done|].
  by intros ->.
Qed.

Lemma classify_cons_plain p s rest :
  plain s ->
  classify p (s :: rest)
  = toks ← classify p rest; Return (arg_token s :: toks).
Proof.
  intros Hs. cbn [classify].
  rewrite bool_decide_eq_false_2 by by apply plain_not_double_dash.
  by rewrite parse_optional_plain.
Qed.

Lemma classify_cons_option p s t rest :
  s <> "--" -> parse_optional p s = Return (Some t) ->
  classify p (s :: rest)
  = toks ← classify p rest;
    Return ({| tk_string := s; tk_kind := KOption t |} :: toks).
Proof.
  intros Hs Ho. cbn [classify].
  rewrite bool_decide_eq_false_2 by done. by rewrite Ho.
Qed.

Lemma classify_plain p l :
  Forall plain l -> classify p l = Return (map arg_token l).
Proof.
  induction 1 as [|s l Hs Hl IH]; [done|].
  rewrite classify_cons_plain by done. by rewrite IH.
Qed.

(** The two flags of the command are option strings of their actions. *)
Lemma classify_d v rest :
  plain v ->
  classify files_parser ("-d" :: v :: rest)
  = toks ← classify files_parser rest;
    Return (flag_token "-d" d_action :: arg_token v :: toks).
Proof.
  intros Hv.
  rewrite (classify_cons_option _ _
             {| ot_action := Some d_action; ot_string := "-d";
                ot_explicit := None |}); [|done..].
  rewrite classify_cons_plain by done.
  by destruct (classify files_parser rest).
Qed.

Lemma classify_R v rest :
  plain v ->
  classify files_parser ("-R" :: v :: rest)
  = toks ← classify files_parser rest;
    Return (flag_token "-R" R_action :: arg_token v :: toks).
Proof.
  intros Hv.
  rewrite (classify_cons_option _ _
             {| ot_action := Some R_action; ot_string := "-R";
                ot_explicit := None |}); [|done..].
  rewrite classify_cons_plain by done.
  by destruct (classify files_parser rest).
Qed.

(** After plain strings only, no option string is left. *)
Lemma split_at_option_plain l : split_at_option (map arg_token l) = None.
Proof. induction l as [|s l IH]; [done|]. cbn. by rewrite IH. Qed.

(** The pattern of [REMAINDER] matches every pattern string to its end. *)
Lemma re_match_remainder (s : list tok) n :
  re_match [ReStar [TokDD; TokA; TokO]; ReEnd] s n
  = Some [(n + length s)%nat].
Proof.
  revert n. induction s as [|c s IH]; intros n.
  - cbn. by rewrite Nat.add_0_r.
  - cbn [re_match]. cbn [re_match] in IH.
    rewrite bool_decide_eq_true_2.
    + rewrite IH. cbn [length]. f_equal. f_equal. lia.
    + destruct c; set_solver.
Qed.

(** One round of the loop at a flag that stores one value: the flag and its
    value are consumed and the value is stored. *)
Lemma walk_flag p a s os v rest st :
  is_positional a = false -> nargs a = NargsInt 1 -> kind a = StoreAction ->
  plain v ->
  walk p ({| tk_string := s;
             tk_kind := KOption {| ot_action := Some a; ot_string := os;
                                   ot_explicit := None |} |}
          :: arg_token v :: rest) 0 st
  = walk p rest 0 (store a [v] st).
Proof.
  intros Hpos Hn Hk Hv.
  cbn [walk split_at_option tk_kind tk_string mbind outcome_bind length].
  unfold consume_optional, consume_following. cbn [ot_action ot_explicit].
  unfold match_argument, nargs_pattern. rewrite Hn, Hpos.
  cbn [map seq app re_match letter arg_token tk_kind
       fmap option_fmap option_map].
  rewrite decide_True by done.
  cbn [mbind outcome_bind take app take_actions].
  unfold take_action. rewrite Hk.
  cbn [mbind outcome_bind Nat.add Nat.sub walk].
  unfold get_values. rewrite Hn. cbn [remove_first_dd tk_string].
  rewrite bool_decide_eq_false_2 by by apply plain_not_double_dash.
  reflexivity.
Qed.

(** The loop ends where only plain strings are left. *)
Lemma walk_plain p l st :
  walk p (map arg_token l) 0 st = Return (map arg_token l, st).
Proof.
  destruct l as [|s l]; [done|].
  change (map arg_token (s :: l)) with (arg_token s :: map arg_token l).
  cbn [walk].
  change (arg_token s :: map arg_token l) with (map arg_token (s :: l)).
  by rewrite split_at_option_plain.
Qed.

(** The positional [args] then takes all of them. *)
Lemma consume_remainder l st :
  ps_positionals st = [args_action] ->
  consume_positionals (map arg_token l) st
  = Return (length l,
            {| ps_namespace :=
                 <["args" := PyList (map PyStr l)]> (ps_namespace st);
               ps_positionals := []; ps_extras := ps_extras st |}).
Proof.
  intros Hp. unfold consume_positionals, match_arguments_partial.
  rewrite Hp.
  cbn [length match_partial_upto take flat_map app].
  change (nargs_pattern args_action) with [ReStar [TokDD; TokA; TokO]; ReEnd].
  rewrite re_match_remainder. cbn [take_positionals].
  unfold take_action. cbn [kind args_action mbind outcome_bind].
  rewrite !length_map, Nat.add_0_l.
  rewrite map_map. cbn [tk_string arg_token]. rewrite map_id.
  rewrite firstn_all. unfold get_values. cbn [nargs dest args_action].
  cbn [ps_namespace ps_positionals ps_extras drop length Nat.add].
  rewrite Hp. by rewrite Nat.add_0_r.
Qed.

Lemma default_namespace_files :
  default_namespace files_parser
  = <["args" := PyNone]> (<["R" := PyNone]> (<["d" := PyNone]> ∅)).
Proof. reflexivity. Qed.

(** The parser of the command on a vector of the grammar. *)
Lemma parse_args_shaped d_first d R positional :
  (forall v, d = Some v -> plain v) ->
  (forall v, R = Some v -> plain v) ->
  Forall plain positional ->
  parse_args files_parser (shaped_argv d_first d R positional)
  = Return (parsed_namespace d R positional).
Proof.
  intros Hd HR Hpos.
  unfold parse_args, parse_known_args, parse_known_args_inner.
  unfold shaped_argv, flag_strings.
  rewrite default_namespace_files.
  change (positional_actions files_parser) with [args_action].
  destruct d_first, d as [vd|], R as [vR|];
    try specialize (Hd _ eq_refl); try specialize (HR _ eq_refl);
    cbn [app];
    repeat first [ rewrite classify_d by done | rewrite classify_R by done ];
    rewrite classify_plain by done;
    cbn [mbind outcome_bind]; unfold flag_token;
    repeat (rewrite walk_flag by done);
    rewrite walk_plain; cbn [mbind outcome_bind];
    rewrite consume_remainder by done; cbn [mbind outcome_bind];
    unfold add_extras, store; cbn [ps_namespace ps_positionals ps_extras];
    rewrite drop_ge by (by rewrite !length_map);
    cbn [app dest d_action R_action map];
    f_equal; unfold parsed_namespace, flag_value;
    apply map_eq; intros k; rewrite !lookup_insert;
    repeat case_decide; congruence.
Qed.






(** ** The sample sessions *)

Lemma gdb_session_no_sz : "sz" ∉ builtins gdb_session.
Proof. by apply (bool_decide_unpack _). Qed.

Lemma import_gdb_session : (import_files gdb_session).2 = Return tt.
Proof.
  apply import_files_succeeds with (t := TNamed "char");
    try by apply (bool_decide_unpack _).
  reflexivity.
Qed.

(** Nothing on the way prints. *)
Lemma module_body_prints_nothing (out : list string) :
  triple (fun st => stdout st = out) module_body (fun st _ => stdout st = out).
Proof.
  unfold module_body, FilesCommand.__init__.
  repeat (keep_invariant; try done).
Qed.

Lemma loaded_session_stdout : stdout loaded_session = [].
Proof.
  by apply (module_body_prints_nothing []
              (set_globals fresh_namespace gdb_session)).
Qed.

Lemma loaded_session_execute self argv :
  FilesCommand.execute self argv loaded_session
  = (loaded_session, Raise (NameError "sz")).
Proof.
  destruct (import_never_binds_sz gdb_session) as [Hg Hb].
  apply execute_unbound_sz; [done|].
  unfold loaded_session. rewrite Hb. apply gdb_session_no_sz.
Qed.

(** Every later operation on a parser keeps the [format_usage] it has. *)
Lemma add_argument_format_usage name n p p' :
  add_argument name n p = Return p' ->
  inst_format_usage p' = inst_format_usage p.
Proof.
  unfold add_argument. destruct name as [|c name]; [done|].
  destruct (starts_with_dash (String c name)).
  - destruct (lstrip_dash (String c name)); [done|].
    destruct n as [[|k]|]; [done|..];
      (destruct (find_option p (String c name)); [done|]);
      by intros [= <-].
  - destruct n as [[|k]|]; [done|..]; by intros [= <-].
Qed.

Lemma apply_op_format_usage p op :
  inst_format_usage (apply_op p op) = inst_format_usage p.
Proof.
  destruct op as [name n|prog_name|arg_strings]; simpl.
  - destruct (add_argument name n p) as [p'|e] eqn:E; [|done].
    by apply add_argument_format_usage in E.
  - done.
  - by destruct (parse_args p arg_strings).
Qed.

Lemma apply_ops_format_usage ops p :
  inst_format_usage (foldl apply_op p ops) = inst_format_usage p.
Proof.
  revert p. induction ops as [|op ops IH]; intros p; [done|].
  simpl. by rewrite IH, apply_op_format_usage.
Qed.

(** ** The code on small inputs *)

(** A flag with no value, a flag followed by a flag, and an unknown flag end
    in [parser.error]; [-h] prints the help and exits. *)
Example parse_d_without_value :
  parse_args files_parser ["-d"] = Raise (SystemExit 2).
Proof. vm_compute. reflexivity. Qed.

Example parse_d_followed_by_flag :
  parse_args files_parser ["-d"; "-R"] = Raise (SystemExit 2).
Proof. vm_compute. reflexivity. Qed.

Example parse_unknown_flag :
  parse_args files_parser ["-x"; "462"] = Raise (SystemExit 2).
Proof. vm_compute. reflexivity. Qed.

Example parse_help : parse_args files_parser ["-h"] = Raise (SystemExit 0).
Proof. vm_compute. reflexivity. Qed.

(** A flag takes one value only: what follows is positional; and once a
    positional argument has been seen, the remainder takes everything. *)
Example parse_d_then_positionals :
  parse_args files_parser ["-d"; "f745fd60"; "462"; "720"]
  = Return (parsed_namespace (Some "f745fd60") None ["462"; "720"]).
Proof. vm_compute. reflexivity. Qed.

Example parse_flag_after_positional :
  parse_args files_parser ["462"; "-d"; "f745fd60"]
  = Return (parsed_namespace None None ["462"; "-d"; "f745fd60"]).
Proof. vm_compute. reflexivity. Qed.

(** The header [execute] would build if [sz] were bound to 8, and what
    [execute] does then: it returns [None] and the state is the same, so
    even then nothing is printed. *)
Example vaddrfmt_inode :
  str_format FilesCommand.vaddrfmt [PyInt 8; PyStr "INODE"]
  = Return " INODE  ".
Proof. reflexivity. Qed.

Example files_header_with_sz_8 :
  str_mod " FD %s %s %s TYPE PATH"
    [PyStr "  FILE  "; PyStr " DENTRY "; PyStr " INODE  "]
  = Return " FD   FILE    DENTRY   INODE   TYPE PATH".
Proof. reflexivity. Qed.

Example execute_with_sz_bound :
  FilesCommand.execute (PyInstance "FilesCommand") (PyList [])
    (set_globals (<["sz" := PyInt 8]> (globals loaded_session))
                 loaded_session)
  = (set_globals (<["sz" := PyInt 8]> (globals loaded_session))
                 loaded_session,
     Return PyNone).
Proof. vm_compute. reflexivity. Qed.

(** * The claims *)

(** C1 (what the code does where the claim expects a listing): the command
    is invoked with no argument in a session that has imported the module.
    The argument vector parses to the namespace with no flag and no
    positional argument, and [execute] on it raises [NameError] for [sz];
    the session is left as it was and nothing has been printed, neither the
    header line [FD FILE DENTRY INODE TYPE PATH] nor a row. *)
Theorem files_prints_no_listing :
  parse_args files_parser [] = Return (parsed_namespace None None [])
  /\ FilesCommand.execute (PyInstance "FilesCommand")
       (PyNamespace (parsed_namespace None None [])) loaded_session
     = (loaded_session, Raise (NameError "sz"))
  /\ stdout loaded_session = [].
Proof.
  split; [|split].
  - by apply (parse_args_shaped true None None []).
  - apply loaded_session_execute.
  - apply loaded_session_stdout.
Qed.

(** C2: once the module has been imported, in a Python whose builtins do not
    define [sz], every call [execute(argv)] raises [NameError] for the name
    [sz], whatever [self] and [argv] are; the state after the call is the
    state before it, so nothing is printed and the registered command object
    is unchanged. *)
Theorem execute_raises_NameError (st0 : interp) (self argv : pyval) :
  "sz" ∉ builtins st0 ->
  FilesCommand.execute self argv (import_files st0).1
  = ((import_files st0).1, Raise (NameError "sz")).
Proof.
  intros Hb. destruct (import_never_binds_sz st0) as [Hg HB].
  apply execute_unbound_sz; [done|]. by rewrite HB.
Qed.

Lemma execute_raises_NameError_witness :
  ("sz" ∉ builtins gdb_session)
  /\ FilesCommand.execute (PyInstance "FilesCommand")
       (PyList [PyStr "-d"; PyStr "f745fd60"]) (import_files gdb_session).1
     = ((import_files gdb_session).1, Raise (NameError "sz")).
Proof.
  split.
  - apply (bool_decide_unpack _). vm_compute. exact I.
  - apply (execute_raises_NameError gdb_session).
    apply (bool_decide_unpack _). vm_compute. exact I.
Defined.

(** C3 (what the code does where the claim expects the dentry to be
    resolved): [-d f745fd60] parses, the namespace holds the address under
    [d], and [execute] on it raises [NameError] for [sz]: the address is
    never read and nothing is displayed. *)
Theorem files_d_displays_nothing :
  parse_args files_parser ["-d"; "f745fd60"]
  = Return (parsed_namespace (Some "f745fd60") None [])
  /\ FilesCommand.execute (PyInstance "FilesCommand")
       (PyNamespace (parsed_namespace (Some "f745fd60") None []))
       loaded_session
     = (loaded_session, Raise (NameError "sz"))
  /\ stdout loaded_session = [].
Proof.
  split; [|split].
  - apply (parse_args_shaped true (Some "f745fd60") None []); [|done..].
    by intros v [= <-].
  - apply loaded_session_execute.
  - apply loaded_session_stdout.
Qed.

(** C4 (what the code does where the claim expects a search): [-R pts/4]
    parses, the namespace holds the reference under [R], and [execute] on it
    raises [NameError] for [sz]: no context is searched and no entry is
    printed. *)
Theorem files_R_prints_nothing :
  parse_args files_parser ["-R"; "pts/4"]
  = Return (parsed_namespace None (Some "pts/4") [])
  /\ FilesCommand.execute (PyInstance "FilesCommand")
       (PyNamespace (parsed_namespace None (Some "pts/4") []))
       loaded_session
     = (loaded_session, Raise (NameError "sz"))
  /\ stdout loaded_session = [].
Proof.
  split; [|split].
  - apply (parse_args_shaped true None (Some "pts/4") []); [done| |done].
    by intros v [= <-].
  - apply loaded_session_execute.
  - apply loaded_session_stdout.
Qed.




(** C6: an import that succeeds has constructed one [FilesCommand] instance
    and handed it, with its parser, to the base constructor under the name
    [files]: the commands of the host are those it had before followed by
    this one, so the host holds one more [files] command than before, and
    exactly one if it had none. *)
Theorem import_registers_files (st0 st : interp) :
  import_files st0 = (st, Return tt) ->
  commands st = commands st0 ++ [("files", files_command)]
  /\ registered "files" st = S (registered "files" st0)
  /\ (registered "files" st0 = 0 -> registered "files" st = 1).
Proof.
  intros E.
  assert (commands st = commands st0 ++ [("files", files_command)]) as Hc.
  { pose proof (module_body_registers (commands st0)
                  (set_globals fresh_namespace st0) eq_refl) as H.
    unfold import_files in E. rewrite E in H. by apply H. }
  assert (registered "files" st = S (registered "files" st0)) as Hr.
  { unfold registered. rewrite Hc, filter_app, length_app.
    rewrite filter_cons_True by done. simpl. lia. }
  repeat split; [done..|]. intros H0. by rewrite Hr, H0.
Qed.

Lemma import_registers_files_witness :
  commands loaded_session = [("files", files_command)]
  /\ registered "files" loaded_session = 1
  /\ (registered "files" gdb_session = 0 -> registered "files" loaded_session = 1).
Proof.
  apply (import_registers_files gdb_session loaded_session).
  vm_compute. reflexivity.
Defined.

(** C7: the [format_usage] of the parser that [__init__] builds returns the
    string [files [-d dentry] | [-R reference] [pid | taskp] ...] followed by
    a newline, whatever arguments are declared, whatever [prog] is set and
    whatever is parsed afterwards, and whatever the method of the class
    would return; so two calls, in any two such states, return the same
    string. *)
Theorem format_usage_constant (st st' : interp) (p : ArgumentParser)
  (class_format_usage class_format_usage' : ArgumentParser -> string)
  (ops ops' : list parser_op) :
  FilesCommand.build_parser st = (st', Return p) ->
  format_usage class_format_usage (foldl apply_op p ops)
  = "files [-d dentry] | [-R reference] [pid | taskp] ..."
    +:+ String "010"%char EmptyString
  /\ format_usage class_format_usage (foldl apply_op p ops)
     = format_usage class_format_usage' (foldl apply_op p ops').
Proof.
  intros Hp. apply build_parser_returns in Hp as ->.
  unfold format_usage. by rewrite !apply_ops_format_usage.
Qed.

Lemma format_usage_constant_witness :
  format_usage (fun p => "usage: " +:+ prog p)
    (foldl apply_op files_parser
       [OpAddArgument "-x" (NargsInt 2); OpSetProg "ls";
        OpParseArgs ["-d"; "f745fd60"]])
  = "files [-d dentry] | [-R reference] [pid | taskp] ..."
    +:+ String "010"%char EmptyString
  /\ format_usage (fun p => "usage: " +:+ prog p)
       (foldl apply_op files_parser
          [OpAddArgument "-x" (NargsInt 2); OpSetProg "ls";
           OpParseArgs ["-d"; "f745fd60"]])
     = format_usage (fun _ => EmptyString) (foldl apply_op files_parser []).
Proof.
  apply (format_usage_constant loaded_session loaded_session files_parser).
  vm_compute. reflexivity.
Defined.

(** C8: the lookup of [char] comes before the class definition and the
    instantiation; when gdb does not know the type, the import raises, the
    name [FilesCommand] is never bound, and the commands of the host are
    those it had before: no [files] command has been registered. *)
Theorem import_raises_without_char (st0 : interp) :
  gdb_types st0 !! "char" = None ->
  is_return (import_files st0).2 = false
  /\ globals (import_files st0).1 !! "FilesCommand" = None
  /\ commands (import_files st0).1 = commands st0
  /\ registered "files" (import_files st0).1 = registered "files" st0.
Proof.
  intros Hchar.
  destruct (module_body_without_char (commands st0)
              (set_globals fresh_namespace st0)) as [(Hc & _ & Hcls) Hraise].
  { by repeat split. }
  unfold import_files. repeat split; try done.
  unfold registered. by rewrite Hc.
Qed.

Lemma import_raises_without_char_witness :
  is_return (import_files gdb_without_symbols).2 = false
  /\ globals (import_files gdb_without_symbols).1 !! "FilesCommand" = None
  /\ commands (import_files gdb_without_symbols).1 = []
  /\ registered "files" (import_files gdb_without_symbols).1 = 0.
Proof.
  apply (import_raises_without_char gdb_without_symbols).
  vm_compute. reflexivity.
Defined.

(** Read the other way round: a registration shows that the lookup of
    [char] succeeded. *)
Lemma registration_needs_char st0 :
  commands (import_files st0).1 <> commands st0 ->
  is_Some (gdb_types st0 !! "char").
Proof.
  intros Hne. destruct (gdb_types st0 !! "char") eqn:E; [done|].
  destruct Hne.
  destruct (module_body_without_char (commands st0)
              (set_globals fresh_namespace st0)) as [(Hc & _) _]; [|done].
  by repeat split.
Qed.

(** With the four modules at hand and no [char], the exception is the
    [gdb.error] of the lookup. *)
Example import_without_symbols :
  (import_files gdb_without_symbols).2
  = Raise (GdbError "No type named char.").
Proof. vm_compute. reflexivity. Qed.

(** * Further properties *)

(** ** The import, case by case *)

Ltac fail_import :=
  erewrite bind_raise;
  [ reflexivity
  | unfold import_module; simpl importable;
    rewrite decide_False by assumption; reflexivity ].

(** The whole run of an import on a host that has everything. *)
Lemma import_files_run st0 t :
  "gdb" ∈ importable st0 -> "crashcommand" ∈ importable st0 ->
  "argparse" ∈ importable st0 -> "crash.cache.syms" ∈ importable st0 ->
  gdb_types st0 !! "char" = Some t ->
  import_files st0
  = (set_commands (commands st0 ++ [("files", files_command)])
       (set_globals (loaded_namespace t) st0),
     Return tt).
Proof.
  intros Hgdb Hcc Harg Hsyms Hchar.
  unfold import_files, module_body.
  run_step run_import. run_step run_store.
  run_step run_import. run_step run_store.
  run_step run_import. run_step run_store.
  run_step run_import. run_step run_store.
  run_step ltac:(unfold gdb_lookup_type; run_step run_load;
                 unfold host_lookup_type; simpl gdb_types; rewrite Hchar;
                 reflexivity).
  run_step run_store. run_step run_load. run_step run_store.
  run_step run_load.
  unfold FilesCommand.__init__.
  erewrite bind_return.
  2:{ rewrite build_parser_spec.
      match goal with |- context [load_global ?n ?s] =>
        assert (load_global n s = (s, Return (PyModule "argparse"))) as ->
          by run_load end.
      reflexivity. }
  run_step run_load. reflexivity.
Qed.

(** The outcome of the import, read off the host. *)
Lemma import_files_outcome st0 :
  (import_files st0).2 = expected_import_outcome st0.
Proof.
  unfold expected_import_outcome, imported_modules. cbn [find].
  repeat (case_bool_decide;
          [ unfold import_files, module_body;
            repeat (run_step run_import; run_step run_store);
            by fail_import
          | ]).
  repeat match goal with H : ¬ _ ∉ _ |- _ => apply dec_stable in H end.
  destruct (gdb_types st0 !! "char") as [t|] eqn:Hchar.
  - by rewrite (import_files_run st0 t).
  - unfold import_files, module_body.
    repeat (run_step run_import; run_step run_store).
    erewrite bind_raise; [reflexivity|].
    unfold gdb_lookup_type. run_step run_load.
    unfold host_lookup_type. simpl gdb_types. by rewrite Hchar.
Qed.

Lemma import_success_inv st0 :
  is_return (import_files st0).2 = true ->
  Forall (fun m => m ∈ importable st0) imported_modules
  /\ is_Some (gdb_types st0 !! "char").
Proof.
  rewrite import_files_outcome.
  unfold expected_import_outcome, imported_modules. cbn [find].
  rewrite !Forall_cons, Forall_nil.
  repeat (case_bool_decide; [done|]).
  repeat match goal with H : ¬ _ ∉ _ |- _ => apply dec_stable in H end.
  destruct (gdb_types st0 !! "char") as [t|]; [|done].
  intros _. by eauto 10.
Qed.

(** X1: the import can return only on a host that supplies the four
    modules the file imports and whose gdb knows the type [char]. *)
Theorem import_returns_only_if (st0 : interp) :
  is_return (import_files st0).2 = true ->
  Forall (fun m => m ∈ importable st0) imported_modules
  /\ is_Some (gdb_types st0 !! "char").
Proof. apply import_success_inv. Qed.

Lemma import_returns_only_if_witness :
  Forall (fun m => m ∈ importable gdb_session) imported_modules
  /\ is_Some (gdb_types gdb_session !! "char").
Proof.
  apply (import_returns_only_if gdb_session). vm_compute. reflexivity.
Defined.

(** X2: on a host that cannot supply one of the four modules the file
    imports, the import raises [ImportError]. *)
Theorem missing_module_raises_ImportError (st0 : interp) (m : string) :
  m ∈ imported_modules -> m ∉ importable st0 ->
  exists name, (import_files st0).2 = Raise (ImportError name).
Proof.
  intros Hm Hmissing. rewrite import_files_outcome.
  unfold expected_import_outcome.
  destruct (find _ imported_modules) as [m'|] eqn:Hfind; [by eexists|].
  apply list_elem_of_In in Hm.
  apply (find_none _ _ Hfind) in Hm.
  by apply bool_decide_eq_false_1 in Hm.
Qed.

Lemma missing_module_raises_ImportError_witness :
  exists name,
    (import_files gdb_without_crashcommand).2 = Raise (ImportError name).
Proof.
  apply (missing_module_raises_ImportError gdb_without_crashcommand
           "crashcommand").
  - apply (bool_decide_unpack _). vm_compute. exact I.
  - apply (bool_decide_unpack _). vm_compute. exact I.
Defined.

(** X3: after an import that returns, the namespace of the module holds the
    names of a fresh module and [gdb], [CrashCommand], [argparse],
    [get_value], [charp] and [FilesCommand], nothing else; [charp] is the
    pointer type to the type gdb gave for [char]. *)
Theorem import_loads_namespace (st0 st : interp) :
  import_files st0 = (st, Return tt) ->
  exists t, gdb_types st0 !! "char" = Some t
            /\ globals st = loaded_namespace t
            /\ globals st !! "charp" = Some (PyGdbType (TPointer t)).
Proof.
  intros E.
  assert (is_return (import_files st0).2 = true) as Hret by by rewrite E.
  apply import_success_inv in Hret as [Hmods [t Hchar]].
  unfold imported_modules in Hmods.
  rewrite !Forall_cons in Hmods. destruct Hmods as (? & ? & ? & ? & _).
  rewrite (import_files_run st0 t) in E by done.
  injection E as <-. exists t. split; [done|]. split; reflexivity.
Qed.

Lemma import_loads_namespace_witness :
  exists t, gdb_types gdb_session !! "char" = Some t
            /\ globals loaded_session = loaded_namespace t
            /\ globals loaded_session !! "charp"
               = Some (PyGdbType (TPointer t)).
Proof.
  apply (import_loads_namespace gdb_session loaded_session).
  vm_compute. reflexivity.
Defined.

Lemma module_body_raise_keeps_commands (c0 : list (string * command)) :
  triple (fun st => commands st = c0) module_body
         (fun st o => is_return o = false -> commands st = c0).
Proof.
  unfold module_body.
  do 13 (keep_invariant; try solve [ done | by intros st e HI ]).
  unfold FilesCommand.__init__.
  apply triple_bind_inv;
    [apply triple_stateless, stateless_build_parser|done|intros p].
  apply triple_bind_inv;
    [apply triple_stateless, stateless_load_global|done|intros _].
  by intros st _.
Qed.

(** X4: an import that raises, for whatever reason, leaves the commands of
    the host as they were: the registration is the last thing the module
    does. *)
Theorem failed_import_registers_nothing (st0 : interp) :
  is_return (import_files st0).2 = false ->
  commands (import_files st0).1 = commands st0.
Proof.
  apply (module_body_raise_keeps_commands (commands st0)
           (set_globals fresh_namespace st0)). done.
Qed.

Lemma failed_import_registers_nothing_witness :
  is_return (import_files gdb_without_crashcommand).2 = false
  /\ commands (import_files gdb_without_crashcommand).1 = [].
Proof.
  split; [vm_compute; reflexivity|].
  apply (failed_import_registers_nothing gdb_without_crashcommand).
  vm_compute. reflexivity.
Defined.

Lemma module_body_names :
  triple (fun st => dom (globals st) ⊆ module_names) module_body
         (fun st _ => dom (globals st) ⊆ module_names).
Proof.
  unfold module_body, FilesCommand.__init__.
  repeat (keep_invariant; try done);
    intros st Hdom; simpl; rewrite dom_insert;
    (apply union_least; [|done]); apply singleton_subseteq_l;
    apply (bool_decide_unpack _); vm_compute; exact I.
Qed.

(** X6: whatever its outcome, the import binds no name beyond those of a
    fresh module and the six names the file assigns. *)
Theorem import_binds_only_module_names (st0 : interp) :
  dom (globals (import_files st0).1) ⊆ module_names.
Proof.
  apply (module_body_names (set_globals fresh_namespace st0)).
  apply union_subseteq_l.
Qed.

(** ** The header columns *)

Lemma pretty_N_char_digit d :
  (d < 10)%N ->
  is_digit (pretty_N_char d) = true
  /\ nat_of_ascii (pretty_N_char d) - 48 = N.to_nat d.
Proof.
  intros Hd.
  assert (d = 0 ∨ d = 1 ∨ d = 2 ∨ d = 3 ∨ d = 4 ∨ d = 5 ∨ d = 6 ∨ d = 7
          ∨ d = 8 ∨ d = 9)%N as Hcases by lia.
  by repeat (destruct Hcases as [->|Hcases]; [done|]); subst d.
Qed.

(** Reading back the digits that [pretty] writes in front of a string. *)
Lemma read_digits_pretty_N_go x s :
  exists k, forall acc,
    read_digits acc (pretty_N_go x s)
    = read_digits (acc * 10 ^ k + N.to_nat x) s.
Proof.
  revert s. induction (N.lt_wf_0 x) as [x _ IH]; intros s.
  assert (x = 0 ∨ 0 < x)%N as [->|Hx] by lia.
  - exists 0. intros acc. rewrite pretty_N_go_0. f_equal. simpl. lia.
  - rewrite pretty_N_go_step by done.
    destruct (IH (x `div` 10)%N) with
      (s := String (pretty_N_char (x `mod` 10)) s) as [k Hk].
    { by apply N.div_lt. }
    exists (S k). intros acc. rewrite Hk. cbn [read_digits].
    destruct (pretty_N_char_digit (x `mod` 10)%N) as [-> ->].
    { by apply N.mod_lt. }
    f_equal. rewrite Nat.pow_succ_r'.
    pose proof (N.div_mod x 10 ltac:(done)) as Hdm.
    assert (N.to_nat x = 10 * N.to_nat (x `div` 10) + N.to_nat (x `mod` 10))
      as -> by lia.
    lia.
Qed.

Lemma read_digits_pretty n :
  read_digits 0 (pretty (Z.of_nat n)) = (n, EmptyString).
Proof.
  destruct n as [|n]; [done|].
  change (pretty (Z.of_nat (S n)))
    with (pretty (N.pos (Pos.of_succ_nat n))).
  unfold pretty, pretty_N. rewrite decide_False by done.
  destruct (read_digits_pretty_N_go (N.pos (Pos.of_succ_nat n)) EmptyString)
    as [k Hk].
  rewrite Hk. cbn [read_digits]. f_equal. lia.
Qed.

(** The first character of a written number is a digit. *)
Lemma pretty_N_go_head x s :
  (0 < x)%N -> exists c r, pretty_N_go x s = String c r /\ is_digit c = true.
Proof.
  revert s. induction (N.lt_wf_0 x) as [x _ IH]; intros s Hx.
  rewrite pretty_N_go_step by done.
  destruct (N.eq_0_gt_0_cases (x `div` 10)) as [->|Hq].
  - rewrite pretty_N_go_0. eexists _, _. split; [done|].
    apply pretty_N_char_digit. by apply N.mod_lt.
  - apply IH; [|done]. by apply N.div_lt.
Qed.

Lemma pretty_nat_head n :
  exists c r, pretty (Z.of_nat n) = String c r /\ is_digit c = true.
Proof.
  destruct n as [|n]; [by exists "0"%char, EmptyString|].
  change (pretty (Z.of_nat (S n)))
    with (pretty (N.pos (Pos.of_succ_nat n))).
  unfold pretty, pretty_N. rewrite decide_False by done.
  by apply pretty_N_go_head.
Qed.

Lemma digit_not_align c : is_digit c = true -> is_align c = false.
Proof.
  unfold is_digit, is_align. intros Hd.
  repeat (case_bool_decide; [subst c; done|]). done.
Qed.

(** A number other than zero does not start with the digit zero. *)
Lemma pretty_N_go_head_nonzero x s :
  (0 < x)%N ->
  exists c r, pretty_N_go x s = String c r /\ c <> "0"%char.
Proof.
  revert s. induction (N.lt_wf_0 x) as [x _ IH]; intros s Hx.
  rewrite pretty_N_go_step by done.
  destruct (N.eq_0_gt_0_cases (x `div` 10)) as [Hq|Hq].
  - rewrite Hq, pretty_N_go_0. eexists _, _. split; [done|].
    assert (x < 10)%N as Hlt.
    { destruct (N.lt_ge_cases x 10) as [|Hge]; [done|].
      apply (N.Div0.div_le_mono _ _ 10) in Hge.
      change (10 `div` 10)%N with 1%N in Hge. lia. }
    rewrite N.mod_small by done.
    assert (x = 1 ∨ x = 2 ∨ x = 3 ∨ x = 4 ∨ x = 5 ∨ x = 6 ∨ x = 7 ∨ x = 8
            ∨ x = 9)%N as Hcases by lia.
    by repeat (destruct Hcases as [->|Hcases]; [done|]); subst x.
  - apply IH; [|done]. by apply N.div_lt.
Qed.

Lemma pretty_nat_head_nonzero n :
  0 < n ->
  exists c r, pretty (Z.of_nat n) = String c r /\ c <> "0"%char.
Proof.
  destruct n as [|n]; [lia|]. intros _.
  change (pretty (Z.of_nat (S n)))
    with (pretty (N.pos (Pos.of_succ_nat n))).
  unfold pretty, pretty_N. rewrite decide_False by done.
  by apply pretty_N_go_head_nonzero.
Qed.

Lemma py_format_center n s :
  (Z.of_nat n < 65536)%Z ->
  py_format (PyStr s) (String "^"%char (pretty (Z.of_nat n)))
  = Return (pad " "%char "^"%char n s).
Proof.
  intros Hn. destruct n as [|n]; [done|].
  destruct (pretty_nat_head (S n)) as (c & r & Hp & Hc).
  destruct (pretty_nat_head_nonzero (S n)) as (c' & r' & Hp' & Hc0); [lia|].
  rewrite Hp in Hp'. injection Hp' as <- <-.
  pose proof (read_digits_pretty (S n)) as Hr. rewrite Hp in Hr.
  unfold py_format. rewrite Hp.
  rewrite (digit_not_align c Hc).
  change (is_align "^"%char) with true. cbv iota beta.
  rewrite bool_decide_eq_false_2 by done. cbv iota beta. rewrite Hr.
  assert ((sys_maxsize <? Z.of_nat (S n))%Z = false) as ->.
  { apply Z.ltb_ge. unfold sys_maxsize. lia. }
  reflexivity.
Qed.

(** The template of the header columns: field 1 centred in the width that
    field 0 gives. *)
Lemma str_format_vaddrfmt a0 a1 :
  str_format FilesCommand.vaddrfmt [a0; a1]
  = w ← py_format a0 EmptyString;
    s ← py_format a1 (String "^"%char w);
    Return s.
Proof. reflexivity. Qed.

Lemma string_app_assoc (a b c : string) :
  (a +:+ b) +:+ c = a +:+ (b +:+ c).
Proof.
  induction a as [|x a IH]; [done|]. exact (f_equal (String x) IH).
Qed.

Lemma string_length_app (a b : string) :
  String.length (a +:+ b) = String.length a + String.length b.
Proof. induction a as [|x a IH]; [done|]. exact (f_equal S IH). Qed.

Lemma repeat_char_length c n : String.length (repeat_char c n) = n.
Proof. induction n as [|n IH]; [done|]. exact (f_equal S IH). Qed.

Lemma str_mod_files_header a b c :
  str_mod " FD %s %s %s TYPE PATH" [PyStr a; PyStr b; PyStr c]
  = Return (" FD " +:+ a +:+ " " +:+ b +:+ " " +:+ c +:+ " TYPE PATH").
Proof.
  unfold str_mod. cbv -[String.append].
  rewrite !string_app_assoc. reflexivity.
Qed.

Lemma pad_center n s :
  pad " "%char "^"%char n s
  = repeat_char " "%char ((n - String.length s) / 2)
    +:+ s
    +:+ repeat_char " "%char
          ((n - String.length s) - (n - String.length s) / 2).
Proof. reflexivity. Qed.

Lemma str_format_vaddrfmt_nat n s :
  (Z.of_nat n < 65536)%Z ->
  str_format FilesCommand.vaddrfmt [PyInt (Z.of_nat n); PyStr s]
  = Return (pad " "%char "^"%char n s).
Proof.
  intros Hn. rewrite str_format_vaddrfmt.
  change (py_format (PyInt (Z.of_nat n)) EmptyString)
    with (Return (A := string) (pretty (Z.of_nat n))).
  cbn [mbind outcome_bind]. by rewrite py_format_center.
Qed.

(** X9: [vaddrfmt.format(n, s)], for a width [n] below 65536 and a string
    [s] of ASCII characters, is [s] between spaces, the smaller half of the
    padding on the left; the result is [n] characters long, or as long as
    [s] when [s] is longer. *)
Theorem vaddrfmt_centres (n : nat) (s : string) :
  (Z.of_nat n < 65536)%Z ->
  is_ascii s = true ->
  str_format FilesCommand.vaddrfmt [PyInt (Z.of_nat n); PyStr s]
  = Return (repeat_char " "%char ((n - String.length s) / 2)
            +:+ s
            +:+ repeat_char " "%char
                  ((n - String.length s) - (n - String.length s) / 2))
  /\ String.length
       (repeat_char " "%char ((n - String.length s) / 2)
        +:+ s
        +:+ repeat_char " "%char
              ((n - String.length s) - (n - String.length s) / 2))
     = n `max` String.length s.
Proof.
  intros Hn _. split.
  - by rewrite str_format_vaddrfmt_nat, pad_center.
  - rewrite !string_length_app, !repeat_char_length.
    assert ((n - String.length s) / 2 <= n - String.length s)
      by (apply Nat.Div0.div_le_upper_bound; lia).
    lia.
Qed.

Lemma vaddrfmt_centres_witness :
  str_format FilesCommand.vaddrfmt [PyInt 8; PyStr "INODE"]
  = Return " INODE  "
  /\ String.length " INODE  " = 8.
Proof.
  apply (vaddrfmt_centres 8 "INODE"); reflexivity.
Defined.

(** X10: in a state where [sz] is bound to a natural number below 65536,
    [execute] returns [None] and leaves the state as it was: the unbound
    name is the only reason why the call raises. *)
Theorem execute_returns_with_sz (self argv : pyval) (st : interp) (n : nat) :
  (Z.of_nat n < 65536)%Z ->
  globals st !! "sz" = Some (PyInt (Z.of_nat n)) ->
  FilesCommand.execute self argv st = (st, Return PyNone).
Proof.
  intros Hn Hsz.
  assert (load_global "sz" st = (st, Return (PyInt (Z.of_nat n)))) as Hload
    by (unfold load_global; by rewrite Hsz).
  unfold FilesCommand.execute.
  rewrite (bind_return _ _ _ _ _ Hload),
    (lift_bind _ _ _ _ (str_format_vaddrfmt_nat _ _ Hn)).
  rewrite (bind_return _ _ _ _ _ Hload),
    (lift_bind _ _ _ _ (str_format_vaddrfmt_nat _ _ Hn)).
  rewrite (bind_return _ _ _ _ _ Hload),
    (lift_bind _ _ _ _ (str_format_vaddrfmt_nat _ _ Hn)).
  by rewrite (lift_bind _ _ _ _ (str_mod_files_header _ _ _)).
Qed.

Lemma execute_returns_with_sz_witness :
  FilesCommand.execute (PyInstance "FilesCommand") (PyList [])
    (session_with_sz 8)
  = (session_with_sz 8, Return PyNone).
Proof.
  apply (execute_returns_with_sz _ _ (session_with_sz 8) 8).
  - reflexivity.
  - vm_compute. reflexivity.
Defined.

(** X8: in every state, whether [sz] is bound or not and whatever the
    outcome, [execute] leaves the state as it was: it prints nothing,
    registers nothing and binds nothing. *)
Theorem execute_leaves_state (self argv : pyval) (st : interp) :
  (FilesCommand.execute self argv st).1 = st.
Proof. apply stateless_execute. Qed.

(** ** The parser beyond the grammar *)

Lemma substring_0_0 r : String.substring 0 0 r = EmptyString.
Proof. by destruct r. Qed.

(** No string abbreviates two options of the command. *)
Lemma get_option_tuples_at_most_one c r :
  length (get_option_tuples files_parser (String dash (String c r))) <= 1.
Proof.
  unfold get_option_tuples.
  change (option_string_actions files_parser)
    with [("-h", help_action); ("--help", help_action);
          ("-d", d_action); ("-R", R_action)].
  cbn [second_is_dash]. case_bool_decide as Hc.
  - subst c. cbn [split_once].
    rewrite bool_decide_eq_false_2 by done.
    destruct (split_once "=" r) as [[l e]|]; cbn [flat_map app];
      cbn [String.prefix]; repeat (destruct (ascii_dec _ _); try done);
      match goal with |- context [if ?b then _ else _] => destruct b end;
      simpl; lia.
  - cbn [String.substring]. rewrite substring_0_0.
    cbn [flat_map app String.prefix].
    repeat case_bool_decide; simplify_eq;
      repeat (destruct (ascii_dec _ _); simplify_eq; try done);
      repeat match goal with |- context [if ?b then _ else _] =>
        destruct b end; simpl; lia.
Qed.

(** So every argument string is lettered. *)
Lemma parse_optional_returns s :
  exists o, parse_optional files_parser s = Return o.
Proof.
  unfold parse_optional. destruct s as [|a s']; [by eauto|].
  destruct (starts_with_dash (String a s')) eqn:Hd; [|by eauto].
  cbn [negb].
  destruct (find_option files_parser (String a s')); [by eauto|].
  destruct (String.length (String a s') =? 1)%nat eqn:Hlen; [by eauto|].
  match goal with |- context [match ?x with Some t => Return (Some t) | None => _ end] =>
    destruct x; [by eauto|] end.
  destruct s' as [|c r]; [done|].
  apply bool_decide_eq_true_1 in Hd. subst a.
  pose proof (get_option_tuples_at_most_one c r) as Hle.
  destruct (get_option_tuples files_parser (String dash (String c r)))
    as [|t [|t' l]]; [|by eauto|simpl in Hle; lia].
  repeat match goal with |- context [if ?b then _ else _] => destruct b end;
    by eauto.
Qed.

Lemma classify_returns l :
  exists toks, classify files_parser l = Return toks
               /\ map tk_string toks = l.
Proof.
  induction l as [|s l (toks & IH & Hs)]; [by exists []|].
  cbn [classify]. case_bool_decide as Hdd.
  - eexists. split; [done|]. cbn [map tk_string]. f_equal.
    rewrite map_map. apply map_id.
  - destruct (parse_optional_returns s) as [o ->]. rewrite IH.
    eexists. split; [done|]. cbn [map tk_string]. by rewrite Hs.
Qed.

Lemma classify_cons_plain_files s l :
  plain s ->
  exists toks, classify files_parser (s :: l) = Return (arg_token s :: toks)
               /\ map tk_string toks = l.
Proof.
  intros Hs. destruct (classify_returns l) as (toks & Hc & Hl).
  exists toks. split; [|done]. rewrite classify_cons_plain by done.
  by rewrite Hc.
Qed.

(** The loop over a sequence of flags with their values. *)
Lemma classify_flags flags l :
  Forall (fun f => plain f.2) flags ->
  classify files_parser (flag_sequence flags ++ l)
  = toks ← classify files_parser l; Return (flag_tokens flags ++ toks).
Proof.
  induction 1 as [|[b v] flags Hv _ IH].
  - change (flag_sequence [] ++ l) with l.
    by destruct (classify files_parser l).
  - change (flag_sequence ((b, v) :: flags) ++ l)
      with (flag_name b :: v :: (flag_sequence flags ++ l)).
    destruct b; [rewrite classify_d by done|rewrite classify_R by done];
      rewrite IH; by destruct (classify files_parser l).
Qed.

Lemma walk_flags flags rest st :
  Forall (fun f => plain f.2) flags ->
  walk files_parser (flag_tokens flags ++ rest) 0 st
  = walk files_parser rest 0 (store_flags flags st).
Proof.
  intros H. revert st. induction H as [|[b v] flags Hv _ IH]; intros st.
  - done.
  - change (flag_tokens ((b, v) :: flags) ++ rest)
      with (flag_token (flag_name b) (flag_action b) :: arg_token v
            :: (flag_tokens flags ++ rest)).
    unfold flag_token. rewrite walk_flag; [|by destruct b..|done].
    by rewrite IH.
Qed.

Lemma walk_skip_all p toks st :
  walk p toks (length toks) st = Return ([], st).
Proof.
  revert st. induction toks as [|tk toks IH]; intros st; [done|]. apply IH.
Qed.

Lemma consume_remainder_tokens toks st :
  ps_positionals st = [args_action] ->
  consume_positionals toks st
  = Return (length toks,
            {| ps_namespace :=
                 <["args" := PyList (map PyStr (map tk_string toks))]>
                   (ps_namespace st);
               ps_positionals := []; ps_extras := ps_extras st |}).
Proof.
  intros Hp. unfold consume_positionals, match_arguments_partial.
  rewrite Hp.
  cbn [length match_partial_upto take flat_map app].
  change (nargs_pattern args_action) with [ReStar [TokDD; TokA; TokO]; ReEnd].
  rewrite re_match_remainder. cbn [take_positionals].
  unfold take_action. cbn [kind args_action mbind outcome_bind].
  rewrite !length_map, Nat.add_0_l.
  rewrite firstn_all2 by (by rewrite length_map).
  unfold get_values. cbn [nargs dest args_action].
  cbn [ps_namespace ps_positionals ps_extras drop length Nat.add].
  rewrite Hp. by rewrite Nat.add_0_r.
Qed.

Lemma consume_nothing st :
  ps_positionals st = [] ->
  consume_positionals [] st
  = Return (0, {| ps_namespace := ps_namespace st; ps_positionals := [];
                  ps_extras := ps_extras st |}).
Proof. intros Hp. unfold consume_positionals. rewrite Hp. cbn. by rewrite Hp. Qed.

(** From the first positional argument on: the loop and the last call of
    [consume_positionals] give everything to [args]. *)
Lemma walk_then_consume toks st :
  ps_positionals st = [args_action] -> ps_extras st = [] ->
  match toks with [] => True | tk :: _ => tk_kind tk = KArg end ->
  exists rest st1 n st2,
    walk files_parser toks 0 st = Return (rest, st1)
    /\ consume_positionals rest st1 = Return (n, st2)
    /\ ps_namespace st2
       = <["args" := PyList (map PyStr (map tk_string toks))]>
           (ps_namespace st)
    /\ ps_positionals st2 = [] /\ ps_extras st2 = []
    /\ drop n (map tk_string rest) = [].
Proof.
  intros Hp He Hhead. destruct toks as [|tk toks].
  - eexists [], st, _, _. split; [done|].
    split; [by apply consume_remainder_tokens|]. by repeat split.
  - cbn [walk split_at_option]. rewrite Hhead.
    destruct (split_at_option toks) as [[[before [s t]] after]|].
    + rewrite consume_remainder_tokens by done.
      cbn [mbind outcome_bind length]. rewrite walk_skip_all.
      eexists [], _, _, _. split; [done|].
      split; [by apply consume_nothing|]. by repeat split.
    + eexists (tk :: toks), st, _, _. split; [done|].
      split; [by apply consume_remainder_tokens|].
      repeat split; [done|]. apply drop_ge. by rewrite length_map.
Qed.

(** What a sequence of flags leaves in the namespace. *)
Lemma store_flags_fields flags st :
  ps_positionals (store_flags flags st) = ps_positionals st
  /\ ps_extras (store_flags flags st) = ps_extras st.
Proof.
  revert st. induction flags as [|[b v] flags IH]; intros st; [done|].
  apply (IH (store (flag_action b) [v] st)).
Qed.

Lemma store_flags_lookup flags st k :
  ps_namespace (store_flags flags st) !! k
  = if decide (k = "d") then
      match last_value true flags with
      | Some v => Some (PyList [PyStr v])
      | None => ps_namespace st !! k
      end
    else if decide (k = "R") then
      match last_value false flags with
      | Some v => Some (PyList [PyStr v])
      | None => ps_namespace st !! k
      end
    else ps_namespace st !! k.
Proof.
  revert st. induction flags as [|[b v] flags IH]; intros st.
  - cbn. by repeat case_decide.
  - change (store_flags ((b, v) :: flags) st)
      with (store_flags flags (store (flag_action b) [v] st)).
    rewrite IH. cbn [last_value store ps_namespace].
    destruct (last_value true flags), (last_value false flags), b;
      cbn [flag_action dest d_action R_action map];
      rewrite lookup_insert;
      repeat (case_decide || case_bool_decide); simplify_eq; done.
Qed.

(** The parser on flags followed by positional arguments. *)
Lemma parse_args_flags flags positional :
  Forall (fun f => plain f.2) flags ->
  match positional with [] => True | s :: _ => plain s end ->
  parse_args files_parser (flag_sequence flags ++ positional)
  = Return (parsed_namespace (last_value true flags)
                             (last_value false flags) positional).
Proof.
  intros Hflags Hhead.
  assert (exists toks, classify files_parser positional = Return toks
                       /\ map tk_string toks = positional
                       /\ match toks with
                          | [] => True
                          | tk :: _ => tk_kind tk = KArg
                          end) as (toks & Hc & Hs & Hk).
  { destruct positional as [|s l]; [by exists []|].
    destruct (classify_cons_plain_files s l Hhead) as (toks & Hc & Hs).
    eexists. split; [done|]. split; [|done]. cbn. by rewrite Hs. }
  unfold parse_args, parse_known_args, parse_known_args_inner.
  rewrite classify_flags, Hc by done. cbn [mbind outcome_bind].
  rewrite walk_flags by done.
  destruct (store_flags_fields flags
              {| ps_namespace := default_namespace files_parser;
                 ps_positionals := positional_actions files_parser;
                 ps_extras := [] |}) as [Hp He].
  edestruct (walk_then_consume toks) as
    (rest & st1 & n & st2 & -> & Hcons & Hns & Hpos & Hext & Hdrop);
    [exact Hp|exact He|exact Hk|].
  cbn [mbind outcome_bind]. rewrite Hcons. cbn [mbind outcome_bind].
  unfold add_extras. cbn [ps_positionals ps_extras ps_namespace].
  rewrite Hpos, Hext, Hdrop, Hns, Hs. cbn [app mbind outcome_bind].
  f_equal. apply map_eq. intros k. unfold parsed_namespace, flag_value.
  rewrite !lookup_insert, store_flags_lookup.
  cbn [ps_namespace]. rewrite default_namespace_files, !lookup_insert.
  destruct (last_value true flags), (last_value false flags);
    repeat case_decide; simplify_eq; done.
Qed.

(** X11: on any sequence of [-d value] and [-R value], in any order and
    with repetitions, whose values do not start with a dash, followed by
    arguments of which the first does not start with a dash, the parser
    returns the value of the last occurrence of each flag ([None] for a
    flag that does not occur) and, in [args], every string from the first
    positional argument on, as it is. *)
Theorem flags_then_remainder
  (flags : list (bool * string)) (positional : list string) :
  Forall (fun f => plain f.2) flags ->
  match positional with [] => True | s :: _ => plain s end ->
  parse_args files_parser (flag_sequence flags ++ positional)
  = Return (parsed_namespace (last_value true flags)
                             (last_value false flags) positional).
Proof. apply parse_args_flags. Qed.

Lemma flags_then_remainder_witness :
  parse_args files_parser
    ["-d"; "c7cc45a0"; "-R"; "pts/4"; "-d"; "f745fd60"; "462"; "-R"; "x"]
  = Return (parsed_namespace (Some "f745fd60") (Some "pts/4")
                             ["462"; "-R"; "x"]).
Proof.
  apply (flags_then_remainder
           [(true, "c7cc45a0"); (false, "pts/4"); (true, "f745fd60")]
           ["462"; "-R"; "x"]).
  - repeat constructor.
  - reflexivity.
Defined.

(** X12: when the first argument does not start with a dash, no flag is
    recognised at all: [d] and [R] stay [None] and [args] is the whole
    argument vector, whatever strings follow, [-d], [-h] and the double
    dash included. *)
Theorem flag_after_positional_is_positional
  (first : string) (rest : list string) :
  plain first ->
  parse_args files_parser (first :: rest)
  = Return (parsed_namespace None None (first :: rest)).
Proof. intros Hfirst. by apply (parse_args_flags [] (first :: rest)). Qed.

Lemma flag_after_positional_is_positional_witness :
  parse_args files_parser ["462"; "-d"; "f745fd60"; "-h"; "--"]
  = Return (parsed_namespace None None ["462"; "-d"; "f745fd60"; "-h"; "--"]).
Proof.
  apply (flag_after_positional_is_positional "462"
           ["-d"; "f745fd60"; "-h"; "--"]).
  reflexivity.
Defined.

(** A flag with nothing to take. *)
Lemma classify_no_value rest :
  no_value rest ->
  exists toks, classify files_parser rest = Return toks
               /\ match toks with
                  | [] => True
                  | tk :: _ => letter tk <> TokA
                  end.
Proof.
  destruct rest as [|s rest]; [by exists []|].
  destruct (classify_returns rest) as (toks & Hc & _).
  intros [->|[->| ->]].
  - rewrite (classify_cons_option _ _
               {| ot_action := Some d_action; ot_string := "-d";
                  ot_explicit := None |}); [|done..].
    rewrite Hc. by eexists.
  - rewrite (classify_cons_option _ _
               {| ot_action := Some R_action; ot_string := "-R";
                  ot_explicit := None |}); [|done..].
    rewrite Hc. by eexists.
  - by eexists.
Qed.

Lemma walk_flag_without_value is_d toks st :
  match toks with [] => True | tk :: _ => letter tk <> TokA end ->
  exists msg,
    walk files_parser
      (flag_token (flag_name is_d) (flag_action is_d) :: toks) 0 st
    = Raise (ArgumentError msg).
Proof.
  intros Hhead.
  cbn [walk split_at_option flag_token tk_kind tk_string mbind outcome_bind].
  unfold consume_optional, consume_following. cbn [ot_action ot_explicit].
  unfold match_argument.
  replace (re_match (nargs_pattern (flag_action is_d)) (map letter toks) 0)
    with (@None (list nat)).
  - destruct is_d; by eexists.
  - destruct is_d; (destruct toks as [|tk toks]; [done|]);
      cbn [map]; destruct (letter tk); done.
Qed.

(** X13: after any sequence of flags with their values, a [-d] or [-R] that
    is the last string, or is followed by [-d], [-R] or the double dash,
    has no value: the parser calls [error] and the call exits with
    status 2. *)
Theorem flag_without_value_is_rejected
  (flags : list (bool * string)) (is_d : bool) (rest : list string) :
  Forall (fun f => plain f.2) flags ->
  no_value rest ->
  parse_args files_parser (flag_sequence flags ++ flag_name is_d :: rest)
  = Raise (SystemExit 2).
Proof.
  intros Hflags Hrest.
  destruct (classify_no_value rest Hrest) as (toks & Hc & Hhead).
  unfold parse_args, parse_known_args, parse_known_args_inner.
  rewrite classify_flags by done.
  rewrite (classify_cons_option _ _
             {| ot_action := Some (flag_action is_d);
                ot_string := flag_name is_d; ot_explicit := None |});
    [|by destruct is_d..].
  rewrite Hc. cbn [mbind outcome_bind]. rewrite walk_flags by done.
  edestruct (walk_flag_without_value is_d toks) as [msg Hw]; [done|].
  unfold flag_token in Hw. by rewrite Hw.
Qed.

Lemma flag_without_value_is_rejected_witness :
  parse_args files_parser ["-R"; "pts/4"; "-d"; "-R"; "x"]
  = Raise (SystemExit 2).
Proof.
  apply (flag_without_value_is_rejected [(false, "pts/4")] true ["-R"; "x"]).
  - repeat constructor.
  - right. left. reflexivity.
Defined.

(** X14: [-h] or [--help] after any sequence of flags whose values do not
    start with a dash, and before any positional argument, ends
    [parse_args] in an exit with status 0, whatever follows. *)
Theorem help_before_positionals_exits
  (flags : list (bool * string)) (help : string) (rest : list string) :
  Forall (fun f => plain f.2) flags ->
  is_help help ->
  parse_args files_parser (flag_sequence flags ++ help :: rest)
  = Raise (SystemExit 0).
Proof.
  intros Hflags Hhelp.
  destruct (classify_returns rest) as (toks & Hc & _).
  unfold parse_args, parse_known_args, parse_known_args_inner.
  rewrite classify_flags by done.
  rewrite (classify_cons_option _ _
             {| ot_action := Some help_action;
                ot_string := help; ot_explicit := None |});
    [|by destruct Hhelp as [-> | ->]..].
  rewrite Hc. cbn [mbind outcome_bind]. rewrite walk_flags by done.
  cbn [walk split_at_option tk_kind tk_string mbind outcome_bind].
  unfold consume_optional, consume_following. cbn [ot_action ot_explicit].
  unfold match_argument.
  change (nargs_pattern help_action) with [ReEnd].
  cbn [re_match fmap option_fmap option_map mbind outcome_bind app
       take_actions take_action kind help_action].
  reflexivity.
Qed.

Lemma help_before_positionals_exits_witness :
  parse_args files_parser ["-d"; "f745fd60"; "--help"; "462"; "-x"]
  = Raise (SystemExit 0).
Proof.
  apply (help_before_positionals_exits [(true, "f745fd60")] "--help"
           ["462"; "-x"]).
  - repeat constructor.
  - right. reflexivity.
Defined.
